(** * go-readwisereader: the list client and its paginated iterator

    A shallow embedding of [readwisereader] (the package behind
    [readerctl]): the single-page fetcher [Client.List], the iterator
    [Client.ListPaginate], the wire-to-public conversions
    [listResponse.toListResponse] / [document.toDocument] and the
    published-date decoder [dateValue.UnmarshalJSON].

    Go's [int], [int64] and [time.Duration] are [Z] with the two's
    complement wrap-around written out ([wrap64]); [float64] is a
    [spec_float]; strings are [string]; byte slices are [list Byte.byte].
    The iterator talks to its environment (the HTTP server, the caller's
    context, timers, the consumer of the sequence) and may retry forever,
    so it is an interaction tree. *)

From Stdlib Require Import ZArith List String Ascii Bool Lia SpecFloat.
From ITree Require Import ITree ITreeFacts Events.State Events.StateFacts.
From Paco Require Import paco.
Import ListNotations.
Import ITreeNotations.
Local Open Scope itree_scope.
Local Open Scope string_scope.
Local Open Scope list_scope.
Local Open Scope Z_scope.

(** ** Machine integers *)

(** The value an [int64] holds after an arithmetic result [z]. *)
Definition wrap64 (z : Z) : Z := (z + 2 ^ 63) mod 2 ^ 64 - 2 ^ 63.

Definition minInt64 : Z := - 2 ^ 63.
Definition maxInt64 : Z := 2 ^ 63 - 1.

Definition in_int64 (z : Z) : bool := (minInt64 <=? z) && (z <=? maxInt64).

(** ** Durations and instants of package [time] *)

Module time.

(** [type Duration int64], a count of nanoseconds. *)
Definition Duration : Type := Z.

Definition Nanosecond : Duration := 1.
Definition Microsecond : Duration := 1000 * Nanosecond.
Definition Millisecond : Duration := 1000 * Microsecond.
Definition Second : Duration := 1000 * Millisecond.

(** [a * b] on [Duration]: an [int64] product. *)
Definition mul (a b : Duration) : Duration := wrap64 (a * b).

(** [*Location]: the runtime only ever stores [nil] (which means UTC)
    or [&localLoc] in the values built here. *)
Inductive Location : Type :=
| nilLoc
| Local.

(** [time.Time] without a monotonic reading: [wall] is the nanosecond
    within the second, [ext] the seconds since January 1 of year 1. *)
Record Time : Type := mkTime {
  wall : Z;
  ext : Z;
  loc : Location
}.

(** [time.Time{}] *)
Definition zero : Time := mkTime 0 0 nilLoc.

Definition hasMonotonic : Z := Z.shiftl 1 63.
Definition nsecMask : Z := Z.shiftl 1 30 - 1.

Definition sec (t : Time) : Z := ext t.
Definition nsec (t : Time) : Z := Z.land (wall t) nsecMask.

(** [func (t Time) IsZero() bool] *)
Definition IsZero (t : Time) : bool := (sec t =? 0) && (nsec t =? 0).

Definition unixToInternal : Z :=
  (1969 * 365 + 1969 / 4 - 1969 / 100 + 1969 / 400) * 86400.

(** [func unixTime(sec int64, nsec int32) Time] *)
Definition unixTime (sec nsec : Z) : Time :=
  mkTime nsec (wrap64 (sec + unixToInternal)) Local.

(** [func Unix(sec int64, nsec int64) Time]; Go's [/] and [%] truncate
    toward zero ([Z.quot], [Z.rem]). *)
Definition Unix (sec nsec : Z) : Time :=
  if (nsec <? 0) || (1000000000 <=? nsec) then
    let n := Z.quot nsec 1000000000 in
    let sec := wrap64 (sec + n) in
    let nsec := wrap64 (nsec - wrap64 (n * 1000000000)) in
    if nsec <? 0 then unixTime (wrap64 (sec - 1)) (wrap64 (nsec + 1000000000))
    else unixTime sec nsec
  else unixTime sec nsec.

(** [func UnixMilli(msec int64) Time] *)
Definition UnixMilli (msec : Z) : Time :=
  Unix (Z.quot msec 1000) (wrap64 (Z.rem msec 1000 * 1000000)).

(** *** Calendar *)

Definition isLeap (year : Z) : bool :=
  (year mod 4 =? 0) && (negb (year mod 100 =? 0) || (year mod 400 =? 0)).

(** [daysBefore[m]]: days in a non-leap year before month [m+1]. *)
Definition daysBefore (m : Z) : Z :=
  nth (Z.to_nat m)
      [0; 31; 59; 90; 120; 151; 181; 212; 243; 273; 304; 334; 365] 0.

(** [func daysIn(m Month, year int) int] *)
Definition daysIn (m year : Z) : Z :=
  if (m =? 2) && isLeap year then 29
  else daysBefore m - daysBefore (m - 1).

(** Days from January 1 of year 1 to January 1 of [year] in the
    proleptic Gregorian calendar (negative for year 0). *)
Definition daysSinceYear1 (year : Z) : Z :=
  let y := year - 1 in
  365 * y + y / 4 - y / 100 + y / 400.

(** [Date(year, month, day, 0, 0, 0, 0, UTC)] for a month in 1..12 and
    a day in the month: midnight of that day; [setLoc(UTC)] stores
    [nil]. *)
Definition Date (year month day : Z) : Time :=
  let d := daysSinceYear1 year + daysBefore (month - 1)
           + (if isLeap year && (3 <=? month) then 1 else 0)
           + (day - 1) in
  mkTime 0 (d * 86400) nilLoc.

(** *** Parsing a date, after [time.Parse] with the layout
    ["2006-01-02"] (the standard library's [parse], followed through
    the three elements of that layout). *)

Definition byteAt (s : string) (i : nat) : Z :=
  match String.get i s with
  | Some c => Z.of_N (N_of_ascii c)
  | None => 0
  end.

(** [func isDigit(s string, i int) bool] *)
Definition isDigit (s : string) (i : nat) : bool :=
  (i <? String.length s)%nat && (48 <=? byteAt s i) && (byteAt s i <=? 57).

(** [s[n:]] for [n] up to the length of [s]. *)
Fixpoint from (n : nat) (s : string) : string :=
  match n, s with
  | O, _ => s
  | S n', String _ s' => from n' s'
  | S _, EmptyString => EmptyString
  end.

(** [func leadingInt(s) (x uint64, rem string, err error)] *)
Fixpoint leadingInt (s : string) (x : Z) : option (Z * string) :=
  match s with
  | String c rest =>
      let b := Z.of_N (N_of_ascii c) in
      if (b <? 48) || (57 <? b) then Some (x, s)
      else if 2 ^ 63 / 10 <? x then None
      else let x := x * 10 + b - 48 in
           if 2 ^ 63 <? x then None else leadingInt rest x
  | EmptyString => Some (x, s)
  end.

(** [func atoi(s) (x int, err error)] *)
Definition atoi (s : string) : option Z :=
  let neg := (0 <? String.length s)%nat && (byteAt s 0 =? 45) in
  let s := if (0 <? String.length s)%nat
              && ((byteAt s 0 =? 45) || (byteAt s 0 =? 43))
           then from 1 s else s in
  match leadingInt s 0 with
  | Some (q, EmptyString) => Some (if neg then wrap64 (- wrap64 q) else wrap64 q)
  | _ => None
  end.

(** [func getnum(s string, fixed bool) (int, string, error)] *)
Definition getnum (s : string) (fixed : bool) : option (Z * string) :=
  if negb (isDigit s 0) then None
  else if negb (isDigit s 1) then
    if fixed then None else Some (byteAt s 0 - 48, from 1 s)
  else Some ((byteAt s 0 - 48) * 10 + (byteAt s 1 - 48), from 2 s).

(** [func skip(value, prefix string) (string, error)] for a prefix
    without spaces. *)
Fixpoint skip (value prefix : string) {struct prefix} : option string :=
  match prefix with
  | EmptyString => Some value
  | String p prefix' =>
      match value with
      | EmptyString => None
      | String v value' =>
          if Ascii.eqb v p then skip value' prefix' else None
      end
  end.

Inductive ParseFailure : Type :=
| badFormat
| monthOutOfRange
| dayOutOfRange
| extraText.

(** [*time.ParseError]: the layout, the value and why it was refused. *)
Record ParseError : Type := mkParseError {
  Layout : string;
  Value : string;
  Message : ParseFailure
}.

Definition DateOnly : string := "2006-01-02".

(** [time.Parse("2006-01-02", value)]: a four-digit year, a two-digit
    month in 1..12 and a two-digit day of that month, separated by
    ["-"], nothing after; the instant is midnight UTC. *)
Definition Parse_DateOnly (value0 : string) : ParseError + Time :=
  let fail m := inl (mkParseError DateOnly value0 m) in
  if (String.length value0 <? 4)%nat || negb (isDigit value0 0)
  then fail badFormat else
  match atoi (substring 0 4 value0) with
  | None => fail badFormat
  | Some year =>
  match skip (from 4 value0) "-" with
  | None => fail badFormat
  | Some value =>
  match getnum value true with
  | None => fail badFormat
  | Some (month, value) =>
  if (month <=? 0) || (12 <? month) then fail monthOutOfRange else
  match skip value "-" with
  | None => fail badFormat
  | Some value =>
  match getnum value true with
  | None => fail badFormat
  | Some (day, value) =>
  if negb (String.length value =? 0)%nat then fail extraText else
  if (day <? 1) || (daysIn month year <? day) then fail dayOutOfRange
  else inr (Date year month day)
  end end end end end.

End time.

(** ** Package [strconv] *)

Module strconv.

(** [int] is 64 bits wide on the platforms modelled here. *)
Definition IntSize : Z := 64.

(** [ErrSyntax] and [ErrRange] *)
Inductive Sentinel : Type :=
| ErrSyntax
| ErrRange.

(** [*strconv.NumError] *)
Record NumError : Type := mkNumError {
  Func : string;
  Num : string;
  Err : Sentinel
}.

(** The digit loop of [ParseUint(s, 10, 0)]: a byte that is no decimal
    digit is a syntax error, a value above [2^64 - 1] a range error, at
    the first byte where either shows. *)
Fixpoint digits (s : string) (n : Z) : Sentinel + Z :=
  match s with
  | EmptyString => inr n
  | String c rest =>
      let b := Z.of_N (N_of_ascii c) in
      if (b <? 48) || (57 <? b) then inl ErrSyntax
      else let n1 := n * 10 + (b - 48) in
           if 2 ^ 64 - 1 <? n1 then inl ErrRange else digits rest n1
  end.

(** [func ParseUint(s string, 10, 0) (uint64, error)] *)
Definition ParseUint (s : string) : Sentinel + Z :=
  match s with
  | EmptyString => inl ErrSyntax
  | _ => digits s 0
  end.

(** [func ParseInt(s string, 10, 0) (int64, error)] *)
Definition ParseInt (s0 : string) : Sentinel + Z :=
  match s0 with
  | EmptyString => inl ErrSyntax
  | String c rest =>
      let neg := Ascii.eqb c "-" in
      let s := if Ascii.eqb c "+" || neg then rest else s0 in
      match ParseUint s with
      | inl e => inl e
      | inr un =>
          let cutoff := 2 ^ (IntSize - 1) in
          if negb neg && (cutoff <=? un) then inl ErrRange
          else if neg && (cutoff <? un) then inl ErrRange
          else inr (if neg then wrap64 (- wrap64 un) else wrap64 un)
      end
  end.

(** [func Atoi(s string) (int, error)]. Its fast path for short
    strings returns what [ParseInt] returns, so only the latter is
    written out; the error names ["Atoi"] and the whole input. *)
Definition Atoi (s : string) : NumError + Z :=
  match ParseInt s with
  | inl e => inl (mkNumError "Atoi" s e)
  | inr i64 => inr i64
  end.

End strconv.

(** ** Errors *)

(** [type ErrorRateLimited struct { RetryAfter time.Duration }] *)
Record ErrorRateLimited : Type := mkErrorRateLimited {
  RetryAfter : time.Duration
}.

(** The [error] values that reach this package. A [fmt.Errorf] result
    keeps its format and operands instead of the rendered text; the
    operand of a [%w] verb is what [Unwrap] returns. *)
Inductive error : Type :=
| RateLimited (e : ErrorRateLimited)                   (* *ErrorRateLimited *)
| Errorf_v_w (format : string) (v : string) (w : error)
| Errorf_w (format : string) (w : error)
| Errorf_d (format : string) (d : Z)
| Errorf_T (format : string) (T : string)
| NumError (e : strconv.NumError)                      (* *strconv.NumError *)
| NumSentinel (e : strconv.Sentinel)
| ParseError (e : time.ParseError)                     (* *time.ParseError *)
| Canceled                                             (* context.Canceled *)
| DeadlineExceeded                                     (* context.DeadlineExceeded *)
| Foreign (msg : string).                              (* net/http, io, encoding/json *)

(** The [Unwrap() error] method, where the dynamic type has one. *)
Definition Unwrap (err : error) : option error :=
  match err with
  | Errorf_v_w _ _ w => Some w
  | Errorf_w _ w => Some w
  | NumError e => Some (NumSentinel (strconv.Err e))
  | _ => None
  end.

(** [errors.As(err, &rle)] for [var rle *ErrorRateLimited] and a non-nil
    [err]: the first [*ErrorRateLimited] on the [Unwrap] chain (the chain
    below a [*strconv.NumError] is one sentinel long). *)
Fixpoint errors_As (err : error) : option ErrorRateLimited :=
  match err with
  | RateLimited rle => Some rle
  | Errorf_v_w _ _ w => errors_As w
  | Errorf_w _ w => errors_As w
  | _ => None
  end.

(** ** Decoded JSON *)

(** What [json.Unmarshal] stores into an [interface{}]. *)
#[local] Set Warnings "-register-all".
Inductive any : Type :=
| nil_any
| bool_any (b : bool)
| float64_any (f : spec_float)
| string_any (s : string)
| slice_any (l : list any)
| map_any (m : list (string * any)).

(** The [%T] rendering of a decoded value. *)
Definition typeName (v : any) : string :=
  match v with
  | nil_any => "<nil>"
  | bool_any _ => "bool"
  | float64_any _ => "float64"
  | string_any _ => "string"
  | slice_any _ => "[]interface {}"
  | map_any _ => "map[string]interface {}"
  end.

(** ** The published-date decoder *)

(** [type dateValue time.Time] *)
Definition dateValue : Type := time.Time.

Section DateValue.

(** [json.Unmarshal(data, &v)] for [var v interface{}]. *)
Variable json_Unmarshal : list Byte.byte -> error + any.

(** What [int64(value)] is where the truncated [value] does not fit:
    the language leaves it to the implementation; it is some [int64]. *)
Variable int64_unrepresentable : spec_float -> Z.

(** [int64(value)] for a [float64]: the fraction is discarded. *)
Definition int64_of_float64 (value : spec_float) : Z :=
  match value with
  | S754_zero _ => 0
  | S754_finite s m e =>
      let mag := Z.shiftl (Z.pos m) e in
      let z := if s then - mag else mag in
      if in_int64 z then z else wrap64 (int64_unrepresentable value)
  | _ => wrap64 (int64_unrepresentable value)
  end.

(** [func (tv *dateValue) UnmarshalJSON(data []byte) error]: the value
    [*tv] holds afterwards, and the error. *)
Definition UnmarshalJSON (tv : dateValue) (data : list Byte.byte)
  : dateValue * option error :=
  match json_Unmarshal data with
  | inl err => (tv, Some err)
  | inr v =>
      match v with
      | float64_any value =>
          (time.UnixMilli (int64_of_float64 value), None)
      | string_any value =>
          match time.Parse_DateOnly value with
          | inl err => (tv, Some (ParseError err))
          | inr t => (t, None)
          end
      | nil_any => (time.zero, None)
      | _ => (tv, Some (Errorf_T "invalid time value type: %T" (typeName v)))
      end
  end.

End DateValue.

(** ** Documents and pages *)

Definition Location : Type := string.
Definition Category : Type := string.

(** [map[string]any] *)
Definition Tags : Type := list (string * any).

Record Document : Type := mkDocument {
  ID : string;
  URL : string;
  SourceURL : string;
  Title : string;
  Author : string;
  Source : string;
  Category_ : Category;
  Location_ : Location;
  Tags_ : Tags;
  SiteName : string;
  WordCount : Z;
  CreatedAt : time.Time;
  UpdatedAt : time.Time;
  Notes : string;
  PublishedDate : time.Time;
  Summary : string;
  ImageURL : string;
  ParentID : string;
  ReadingProgress : spec_float;
  FirstOpenedAt : time.Time;
  LastOpenedAt : time.Time;
  SavedAt : time.Time;
  LastMovedAt : time.Time
}.

(** The wire form [document]; its fields carry a [w] prefix. *)
Record document : Type := mkdocument {
  wID : string;
  wURL : string;
  wSourceURL : string;
  wTitle : string;
  wAuthor : string;
  wSource : string;
  wCategory : Category;
  wLocation : Location;
  wTags : Tags;
  wSiteName : string;
  wWordCount : Z;
  wCreatedAt : time.Time;
  wUpdatedAt : time.Time;
  wNotes : string;
  wPublishedDate : dateValue;
  wSummary : string;
  wImageURL : string;
  wParentID : string;
  wReadingProgress : spec_float;
  wFirstOpenedAt : time.Time;
  wLastOpenedAt : time.Time;
  wSavedAt : time.Time;
  wLastMovedAt : time.Time
}.

(** [func (dr *document) toDocument() Document] *)
Definition toDocument (dr : document) : Document :=
  {| ID := wID dr;
     URL := wURL dr;
     SourceURL := wSourceURL dr;
     Title := wTitle dr;
     Author := wAuthor dr;
     Source := wSource dr;
     Category_ := wCategory dr;
     Location_ := wLocation dr;
     Tags_ := wTags dr;
     SiteName := wSiteName dr;
     WordCount := wWordCount dr;
     CreatedAt := wCreatedAt dr;
     UpdatedAt := wUpdatedAt dr;
     Notes := wNotes dr;
     PublishedDate := wPublishedDate dr;
     Summary := wSummary dr;
     ImageURL := wImageURL dr;
     ParentID := wParentID dr;
     ReadingProgress := wReadingProgress dr;
     FirstOpenedAt := wFirstOpenedAt dr;
     LastOpenedAt := wLastOpenedAt dr;
     SavedAt := wSavedAt dr;
     LastMovedAt := wLastMovedAt dr |}.

Record Page : Type := mkPage {
  Count : Z;
  Results : list Document
}.

(** [Page{}] *)
Definition Page_zero : Page := mkPage 0 [].

(** [ListResponse] embeds [Page]. *)
Record ListResponse : Type := mkListResponse {
  NextPageCursor : string;
  Page_ : Page
}.

Record listResponse : Type := mklistResponse {
  wCount : Z;
  wNextPageCursor : string;
  wResults : list document
}.

(** [func (lr *listResponse) toListResponse() ListResponse]: the loop
    appends one converted document per wire document. *)
Definition toListResponse (lr : listResponse) : ListResponse :=
  let results :=
    fold_left (fun results dr => results ++ [toDocument dr]) (wResults lr) [] in
  {| NextPageCursor := wNextPageCursor lr;
     Page_ := {| Count := wCount lr; Results := results |} |}.

Record ListParams : Type := mkListParams {
  pID : string;
  UpdatedAfter : time.Time;
  pLocation : Location;
  pCategory : Category;
  PageCursor : string;
  WithHTMLContent : bool
}.

(** [params.PageCursor = cursor] *)
Definition set_PageCursor (params : ListParams) (cursor : string) : ListParams :=
  {| pID := pID params;
     UpdatedAfter := UpdatedAfter params;
     pLocation := pLocation params;
     pCategory := pCategory params;
     PageCursor := cursor;
     WithHTMLContent := WithHTMLContent params |}.

(** ** HTTP responses *)

(** [http.Header], keys in canonical form. *)
Definition Header : Type := list (string * list string).

(** [func (h Header) Get(key string) string]: the first value stored
    under [key], or the empty string. *)
Fixpoint Header_Get (h : Header) (key : string) : string :=
  match h with
  | [] => EmptyString
  | (k, vs) :: h' =>
      if String.eqb k key then hd EmptyString vs else Header_Get h' key
  end.

(** [*http.Response]: [Body] is what [io.ReadAll(resp.Body)] returns. *)
Record Response : Type := mkResponse {
  StatusCode : Z;
  Header_ : Header;
  Body : error + list Byte.byte
}.

Definition StatusOK : Z := 200.
Definition StatusTooManyRequests : Z := 429.

(** ** The client and its environment *)

(** Which case of the [select] in [ListPaginate] ran. *)
Inductive SelectCase : Type :=
| time_After     (* case <-time.After(rle.RetryAfter) *)
| ctx_Done.      (* case <-ctx.Done() *)

(** What the client asks of its environment. *)
Variant clientE : Type -> Type :=
| Do (params : ListParams) : clientE (error + Response)
    (* c.client.Do(req) for the GET request built from [params] *)
| ctx_Err : clientE (option error)
    (* ctx.Err() *)
| Select (d : time.Duration) : clientE SelectCase
    (* select { case <-time.After(d): ...; case <-ctx.Done(): ... } *)
| Yield (page : Page) (err : option error) : clientE bool.
    (* yield(page, err) *)

Section Client.

(** [json.NewDecoder(resp.Body).Decode(&lr)] for [var lr listResponse]. *)
Variable Decode : list Byte.byte -> error + listResponse.

(** [func (c *Client) list(ctx, params)]: building the request cannot
    fail for the fixed method and URL, so the first error can come
    from [c.client.Do]. (Named [list_]: [list] is the type of lists.) *)
Definition list_ (params : ListParams) : itree clientE (error + Response) :=
  r <- ITree.trigger (Do params) ;;
  match r with
  | inl err => Ret (inl (Errorf_w "do: %w" err))
  | inr resp =>
      match Body resp with
      | inl err => Ret (inl (Errorf_w "readall: %w" err))
      | inr b => Ret (inr (mkResponse (StatusCode resp) (Header_ resp) (inr b)))
      end
  end.

(** [func (c *Client) List(ctx, params)]: every return is either
    [(nil, err)] with [err] non-nil or [(&r, nil)]. *)
Definition List (params : ListParams) : itree clientE (error + ListResponse) :=
  r <- list_ params ;;
  match r with
  | inl err => Ret (inl err)
  | inr resp =>
      if StatusCode resp =? StatusTooManyRequests then
        let retryAfter := Header_Get (Header_ resp) "Retry-After" in
        match strconv.Atoi retryAfter with
        | inl err =>
            Ret (inl (Errorf_v_w "invalid retry-after header: %v: %w"
                                 retryAfter (NumError err)))
        | inr seconds =>
            let errRateLimited :=
              {| RetryAfter := time.mul seconds time.Second |} in
            Ret (inl (RateLimited errRateLimited))
        end
      else if negb (StatusCode resp =? StatusOK) then
        Ret (inl (Errorf_d "unexpected status code: %d" (StatusCode resp)))
      else
        match Body resp with
        | inl err => Ret (inl err)
        | inr b =>
            match Decode b with
            | inl err => Ret (inl err)
            | inr lr => Ret (inr (toListResponse lr))
            end
        end
  end.

(** One pass through the [for] loop of [ListPaginate] with the loop
    variable [cursor]: [inl cursor'] goes round again, [inr tt] is a
    [return]. [errors.As] is false on a nil [err]. *)
Definition ListPaginate_loop (params : ListParams) (cursor : string)
  : itree clientE (string + unit) :=
  let params := set_PageCursor params cursor in
  r <- List params ;;
  match r with
  | inl err =>
      match errors_As err with
      | Some rle =>
          e <- ITree.trigger ctx_Err ;;
          match e with
          | Some _ =>
              e' <- ITree.trigger ctx_Err ;;
              ITree.trigger (Yield Page_zero e') ;;
              Ret (inr tt)
          | None =>
              c <- ITree.trigger (Select (RetryAfter rle)) ;;
              match c with
              | time_After => Ret (inl cursor)
              | ctx_Done =>
                  e' <- ITree.trigger ctx_Err ;;
                  ITree.trigger (Yield Page_zero e') ;;
                  Ret (inr tt)
              end
          end
      | None =>
          ITree.trigger (Yield Page_zero (Some err)) ;;
          Ret (inr tt)
      end
  | inr resp =>
      more <- ITree.trigger (Yield (Page_ resp) None) ;;
      if negb more then Ret (inr tt)
      else if String.eqb (NextPageCursor resp) EmptyString then Ret (inr tt)
      else Ret (inl (NextPageCursor resp))
  end.

(** [func (c *Client) ListPaginate(ctx, params) iter.Seq2[Page, error]]:
    one call of the function it returns, applied to [yield]. (The loop
    also stores each cursor in the captured [params]; only a second call
    of the same function would read it.) *)
Definition ListPaginate (params : ListParams) : itree clientE unit :=
  let cursor := PageCursor params in
  ITree.iter (ListPaginate_loop params) cursor.

End Client.

(** ** A scripted environment *)

(** One HTTP exchange: what [Do] returns, and whether the caller's
    context got cancelled (and why) while it was in flight. *)
Record Exchange : Type := mkExchange {
  reply : error + Response;
  interrupt : option error
}.

(** How a [select] on the retry timer ends. *)
Inductive Wait : Type :=
| TimerFired
| Cancelled (cause : error).

(** What an observer of the client sees. *)
Inductive Observation : Type :=
| Requested (params : ListParams)
| Waited (d : time.Duration) (c : SelectCase)
| Yielded (page : Page) (err : option error).

(** The environment of one iteration: the exchanges the server will
    answer with, the state of the context, how the coming waits end,
    what the consumer answers to the coming yields, and what has been
    observed so far. A script that has run out never answers. *)
Record World : Type := mkWorld {
  exchanges : list Exchange;
  cancelled : option error;
  waits : list Wait;
  demand : list bool;
  trace : list Observation
}.

(** A context is cancelled once: the first cause stays. *)
Definition cancel (now : option error) (cause : option error) : option error :=
  match now with
  | Some e => Some e
  | None => cause
  end.

(** The world after an exchange, after a wait and after a yield. *)
Definition exchanged (params : ListParams) (x : Exchange) (xs : list Exchange)
    (w : World) : World :=
  mkWorld xs (cancel (cancelled w) (interrupt x)) (waits w) (demand w)
          (trace w ++ [Requested params]).

Definition waited (d : time.Duration) (c : Wait) (ws : list Wait) (w : World)
    : World :=
  match c with
  | TimerFired =>
      mkWorld (exchanges w) (cancelled w) ws (demand w)
              (trace w ++ [Waited d time_After])
  | Cancelled cause =>
      mkWorld (exchanges w) (cancel (cancelled w) (Some cause)) ws (demand w)
              (trace w ++ [Waited d ctx_Done])
  end.

Definition yielded (page : Page) (err : option error) (bs : list bool)
    (w : World) : World :=
  mkWorld (exchanges w) (cancelled w) (waits w) bs
          (trace w ++ [Yielded page err]).

#[global] Arguments exchanged : simpl never.
#[global] Arguments waited : simpl never.
#[global] Arguments yielded : simpl never.

Definition handle : clientE ~> Monads.stateT World (itree void1) :=
  fun T (e : clientE T) (w : World) =>
    match e in clientE T return itree void1 (World * T) with
    | Do params =>
        match exchanges w with
        | [] => ITree.spin
        | x :: xs => Ret (exchanged params x xs w, reply x)
        end
    | ctx_Err => Ret (w, cancelled w)
    | Select d =>
        match waits w with
        | [] => ITree.spin
        | c :: ws =>
            Ret (waited d c ws w,
                 match c with TimerFired => time_After | Cancelled _ => ctx_Done end)
        end
    | Yield page err =>
        match demand w with
        | [] => ITree.spin
        | b :: bs => Ret (yielded page err bs w, b)
        end
    end.

(** Running the iterator in a world, from its start and from the top of
    its loop with the loop variable at [cursor]. *)
Definition run (Decode : list Byte.byte -> error + listResponse)
    (params : ListParams) (w : World) : itree void1 (World * unit) :=
  interp_state handle (ListPaginate Decode params) w.

Definition resume (Decode : list Byte.byte -> error + listResponse)
    (params : ListParams) (cursor : string) (w : World)
    : itree void1 (World * unit) :=
  interp_state handle (ITree.iter (ListPaginate_loop Decode params) cursor) w.

(** One call of the single-page fetcher in a world. *)
Definition fetch (Decode : list Byte.byte -> error + listResponse)
    (params : ListParams) (w : World)
    : itree void1 (World * (error + ListResponse)) :=
  interp_state handle (List Decode params) w.

(** The first [n] steps of a closed run. *)
Fixpoint burn {R : Type} (n : nat) (t : itree void1 R) : option R :=
  match n with
  | O => None
  | S n' =>
      match observe t with
      | RetF r => Some r
      | TauF t' => burn n' t'
      | VisF e _ => match e with end
      end
  end.

(** Lines 102-110 once the consumer has answered [more] to the page of
    [resp]: return, or go round with the next cursor. *)
Definition proceed (Decode : list Byte.byte -> error + listResponse)
    (params : ListParams) (resp : ListResponse) (more : bool) (w : World)
    : itree void1 (World * unit) :=
  if negb more then Ret (w, tt)
  else if String.eqb (NextPageCursor resp) EmptyString then Ret (w, tt)
  else resume Decode params (NextPageCursor resp) w.

(** ** Vocabulary of the statements *)

(** The exchange answers 200 with a readable body that decodes to [lr]. *)
Definition serves (Decode : list Byte.byte -> error + listResponse)
    (x : Exchange) (lr : listResponse) : Prop :=
  exists resp b,
    reply x = inr resp /\ StatusCode resp = StatusOK /\
    Body resp = inr b /\ Decode b = inr lr.

(** The exchange answers 429 with a readable body and the [Retry-After]
    header [raw]. *)
Definition throttles (x : Exchange) (raw : string) : Prop :=
  exists resp b,
    reply x = inr resp /\ StatusCode resp = StatusTooManyRequests /\
    Body resp = inr b /\ Header_Get (Header_ resp) "Retry-After" = raw.

(** The exchange is rate limited: a 429 whose [Retry-After] header
    [strconv.Atoi] reads as [seconds]. *)
Definition rate_limits (x : Exchange) (seconds : Z) : Prop :=
  exists raw, throttles x raw /\ strconv.Atoi raw = inr seconds.

(** The next-cursors of the pages are non-empty up to the last page,
    whose next-cursor is empty. *)
Fixpoint is_chain (lrs : list listResponse) : bool :=
  match lrs with
  | [] => false
  | [lr] => String.eqb (wNextPageCursor lr) EmptyString
  | lr :: rest => negb (String.eqb (wNextPageCursor lr) EmptyString) && is_chain rest
  end.

(** What is observed when the pages [lrs] are fetched from [cursor] on:
    each request carries the next-cursor of the page before it, each
    page is yielded with a nil error. *)
Fixpoint paging (params : ListParams) (cursor : string) (lrs : list listResponse)
    : list Observation :=
  match lrs with
  | [] => []
  | lr :: rest =>
      Requested (set_PageCursor params cursor)
      :: Yielded (Page_ (toListResponse lr)) None
      :: paging params (wNextPageCursor lr) rest
  end.

(** What is observed while the same request is retried after each of the
    signalled delays. *)
Definition retrying (params : ListParams) (delays : list time.Duration)
    : list Observation :=
  flat_map (fun d => [Requested params; Waited d time_After]) delays.

(** A decoded value the published-date decoder has a case for. *)
Definition is_time_value (v : any) : bool :=
  match v with
  | float64_any _ | string_any _ | nil_any => true
  | _ => false
  end.

(** The byte of a character, and the bytes of the decimal digits. *)
Definition code (c : ascii) : Z := Z.of_N (N_of_ascii c).

Definition digit (c : ascii) : Prop := 48 <= code c <= 57.

Definition is_digit (c : ascii) : bool := (48 <=? code c) && (code c <=? 57).

(** The shape [YYYY-MM-DD]: four digits, two digits and two digits with
    a ["-"] between them. *)
Definition is_date_shape (s : string) : bool :=
  match s with
  | String c0 (String c1 (String c2 (String c3 (String c4
      (String c5 (String c6 (String c7 (String c8 (String c9 EmptyString))))))))) =>
      is_digit c0 && is_digit c1 && is_digit c2 && is_digit c3
      && Ascii.eqb c4 "-" && is_digit c5 && is_digit c6
      && Ascii.eqb c7 "-" && is_digit c8 && is_digit c9
  | _ => false
  end.

(** A [float64] whose value is the integer [n]. *)
Definition float64_integer (n : Z) : spec_float :=
  match n with
  | 0 => S754_zero false
  | Z.pos m => S754_finite false m 0
  | Z.neg m => S754_finite true m 0
  end.

(** ** Sample data *)

Definition quote : ascii := ascii_of_N 34.

(** The text up to a closing quote that ends the input. *)
Fixpoint unquote (s : string) : option string :=
  match s with
  | EmptyString => None
  | String c rest =>
      match rest with
      | EmptyString => if Ascii.eqb c quote then Some EmptyString else None
      | _ => option_map (String c) (unquote rest)
      end
  end.

(** A reader of JSON scalars, enough to feed the decoder: [null], the
    booleans, the empty array and object, a quoted text without escapes
    and a decimal integer. *)
Definition sample_json_Unmarshal (data : list Byte.byte) : error + any :=
  let s := string_of_list_byte data in
  if String.eqb s "null" then inr nil_any
  else if String.eqb s "true" then inr (bool_any true)
  else if String.eqb s "false" then inr (bool_any false)
  else if String.eqb s "[]" then inr (slice_any [])
  else if String.eqb s "{}" then inr (map_any [])
  else match s with
       | EmptyString => inl (Foreign "unexpected end of JSON input")
       | String c rest =>
           if Ascii.eqb c quote then
             match unquote rest with
             | Some v => inr (string_any v)
             | None => inl (Foreign "unexpected end of JSON input")
             end
           else
             match strconv.ParseInt s with
             | inr n => inr (float64_any (float64_integer n))
             | inl _ => inl (Foreign "invalid character")
             end
       end.

(** The bytes of a JSON text, and of a JSON string with the text [s]. *)
Definition json_text (s : string) : list Byte.byte := list_byte_of_string s.

Definition json_string (s : string) : list Byte.byte :=
  list_byte_of_string (String quote (String.append s (String quote EmptyString))).

(** Conversions out of range give the smallest [int64], as on amd64. *)
Definition sample_unrepresentable (value : spec_float) : Z := minInt64.

Definition sample_params : ListParams :=
  mkListParams EmptyString time.zero "later" EmptyString EmptyString false.

Definition sample_document (id title : string) : document :=
  mkdocument id "https://read.example/a" "https://example.org/a" title
    "A. Writer" "reader" "article" "later" [("go", nil_any)] "example.org" 1200
    (time.Date 2024 3 1) (time.Date 2024 3 2) EmptyString (time.Date 2024 2 29)
    "A summary" EmptyString EmptyString (S754_zero false)
    time.zero time.zero (time.Date 2024 3 1) (time.Date 2024 3 2).

Definition sample_page1 : listResponse :=
  mklistResponse 3 "cursor-2"
    [sample_document "01" "First"; sample_document "02" "Second"].

Definition sample_page2 : listResponse :=
  mklistResponse 3 EmptyString [sample_document "03" "Third"].

(** A decoder that knows two bodies. *)
Definition sample_Decode (b : list Byte.byte) : error + listResponse :=
  match b with
  | [Byte.x01] => inr sample_page1
  | [Byte.x02] => inr sample_page2
  | _ => inl (Foreign "unexpected end of JSON input")
  end.

Definition sample_200 (b : Byte.byte) : Exchange :=
  mkExchange (inr (mkResponse 200 [] (inr [b]))) None.

Definition sample_429 (raw : string) : Exchange :=
  mkExchange (inr (mkResponse 429 [("Retry-After", [raw])] (inr []))) None.

Definition sample_world (xs : list Exchange) (ws : list Wait) (bs : list bool)
    : World :=
  mkWorld xs None ws bs [].

(** Two pages, then an exchange that is never reached. *)
Definition two_pages : World :=
  sample_world [sample_200 Byte.x01; sample_200 Byte.x02; sample_429 "1"]
    [] [true; true].

(** Rate limited twice, then the last page. *)
Definition limited_twice : World :=
  sample_world
    [sample_429 "2"; sample_429 "0"; sample_200 Byte.x02; sample_200 Byte.x01]
    [TimerFired; TimerFired; TimerFired] [true].

(** Rate limited, and cancelled while waiting. *)
Definition cancelled_waiting : World :=
  sample_world [sample_429 "30"; sample_200 Byte.x01] [Cancelled Canceled] [true].

(** Rate limited, with a deadline that passed during the exchange. *)
Definition cancelled_early : World :=
  sample_world
    [mkExchange (reply (sample_429 "30")) (Some DeadlineExceeded); sample_200 Byte.x01]
    [TimerFired] [true].

(** A first page with a next cursor, and a consumer that stops there. *)
Definition stops_early : World :=
  sample_world [sample_200 Byte.x01; sample_200 Byte.x02] [] [false; true].

(** A 429 with a header that is no integer. *)
Definition malformed_header : World :=
  sample_world [sample_429 "abc"; sample_200 Byte.x01] [TimerFired] [true].

(** A 429 asking for more seconds than a [Duration] holds. *)
Definition huge_retry_after : World :=
  sample_world [sample_429 "9223372037"] [] [].

(** A 429 with a negative header, then the last page. *)
Definition negative_header : World :=
  sample_world [sample_429 "-3"; sample_200 Byte.x02] [TimerFired] [true].

(** A 429 with a header below what a [Duration] holds in seconds, then
    the last page. *)
Definition far_negative_header : World :=
  sample_world [sample_429 "-9223372037"; sample_200 Byte.x02] [TimerFired] [true].

(** What one iteration can leave behind, read from the top of the loop
    with the loop variable at [cursor]: a request, then either a page
    and the end, a page and the passes for a next cursor that is not
    empty, an error item and the end, a full wait and the passes for
    the same cursor, or a wait cut short, the error item and the end. *)
Inductive session (params : ListParams) : string -> list Observation -> Prop :=
| session_last cursor page :
    session params cursor
      [Requested (set_PageCursor params cursor); Yielded page None]
| session_next cursor page cursor' rest :
    cursor' <> EmptyString ->
    session params cursor' rest ->
    session params cursor
      (Requested (set_PageCursor params cursor) :: Yielded page None :: rest)
| session_failed cursor err :
    session params cursor
      [Requested (set_PageCursor params cursor); Yielded Page_zero (Some err)]
| session_retry cursor d rest :
    session params cursor rest ->
    session params cursor
      (Requested (set_PageCursor params cursor) :: Waited d time_After :: rest)
| session_cancelled cursor d err :
    session params cursor
      [Requested (set_PageCursor params cursor); Waited d ctx_Done;
       Yielded Page_zero (Some err)].

Definition is_request (o : Observation) : bool :=
  match o with
  | Requested _ => true
  | _ => false
  end.

(** How many requests were observed. *)
Definition requests (obs : list Observation) : nat :=
  Datatypes.length (filter is_request obs).

Definition is_item (o : Observation) : bool :=
  match o with
  | Yielded _ _ => true
  | _ => false
  end.

(** What the consumer was handed. *)
Definition items (obs : list Observation) : list Observation :=
  filter is_item obs.

(** The fetch of one page under rate limiting: the exchanges that are
    rate limited first, each with the seconds it asks for, then the
    exchange that serves the page. *)
Record Attempt : Type := mkAttempt {
  refusals : list (Exchange * Z);
  served : Exchange;
  wire : listResponse
}.

Definition attempt_script (a : Attempt) : list Exchange :=
  List.map fst (refusals a) ++ [served a].

Definition attempts_script (l : list Attempt) : list Exchange :=
  flat_map attempt_script l.

(** How many fetches are rate limited in all. *)
Definition retries (l : list Attempt) : nat :=
  list_sum (List.map (fun a => Datatypes.length (refusals a)) l).

(** The exchanges are what they are said to be, and the context stays
    live through them. *)
Definition attempt_ok (Decode : list Byte.byte -> error + listResponse)
    (a : Attempt) : Prop :=
  Forall (fun xs => rate_limits (fst xs) (snd xs) /\ interrupt (fst xs) = None)
         (refusals a) /\
  serves Decode (served a) (wire a) /\
  interrupt (served a) = None.

(** What is observed when the pages are fetched under rate limiting:
    for each page the retries of its request, then the request that
    succeeds and the page. *)
Fixpoint throttled (params : ListParams) (cursor : string) (l : list Attempt)
    : list Observation :=
  match l with
  | [] => []
  | a :: rest =>
      retrying (set_PageCursor params cursor)
        (List.map (fun xs => time.mul (snd xs) time.Second) (refusals a))
      ++ Requested (set_PageCursor params cursor)
         :: Yielded (Page_ (toListResponse (wire a))) None
         :: throttled params (wNextPageCursor (wire a)) rest
  end.

(** Two pages, the first rate limited twice and the second once. *)
Definition throttled_pages : list Attempt :=
  [mkAttempt [(sample_429 "2", 2); (sample_429 "0", 0)] (sample_200 Byte.x01)
     sample_page1;
   mkAttempt [(sample_429 "1", 1)] (sample_200 Byte.x02) sample_page2].

Definition throttled_world : World :=
  sample_world (attempts_script throttled_pages ++ [sample_429 "7"])
    [TimerFired; TimerFired; TimerFired; Cancelled Canceled] [true; true; false].

(** No error that the exchange can make [List] return carries a
    rate-limit signal of its own: not the transport's, not the body
    reader's, not the decoder's. *)
Definition quiet (Decode : list Byte.byte -> error + listResponse)
    (x : Exchange) : Prop :=
  match reply x with
  | inl e => errors_As e = None
  | inr resp =>
      match Body resp with
      | inl e => errors_As e = None
      | inr b =>
          match Decode b with
          | inl e => errors_As e = None
          | inr _ => True
          end
      end
  end.

(** A 500 with a readable body that would even decode. *)
Definition server_error : World :=
  sample_world
    [mkExchange (inr (mkResponse 500 [] (inr [Byte.x01]))) None; sample_200 Byte.x02]
    [TimerFired] [true; true].

(** The connection is refused. *)
Definition transport_down : World :=
  sample_world
    [mkExchange (inl (Foreign "dial tcp: connection refused")) None;
     sample_200 Byte.x02]
    [TimerFired] [true; true].

(** A 429 with a good header whose body breaks off. *)
Definition truncated_429 : World :=
  sample_world
    [mkExchange (inr (mkResponse 429 [("Retry-After", ["2"])]
                        (inl (Foreign "unexpected EOF")))) None;
     sample_200 Byte.x02]
    [TimerFired] [true; true].

(** A 200 whose body the decoder refuses. *)
Definition bad_json : World :=
  sample_world [sample_200 Byte.x03; sample_200 Byte.x02] [TimerFired] [true; true].

(** A 429 without any Retry-After header. *)
Definition bare_429 : World :=
  sample_world
    [mkExchange (inr (mkResponse 429 [("Content-Type", ["text/plain"])] (inr [])))
       None;
     sample_200 Byte.x02]
    [TimerFired] [true; true].

(** ** The list command of readerctl *)

(** [RootOpts], without its three unused streams. *)
Record RootOpts : Type := mkRootOpts {
  APIToken : string
}.

(** What an [Exec] function returns when it fails: a usage error, which
    wraps [ErrorUsage] and carries the text after it, or the error of
    the client. *)
Inductive ExecError : Type :=
| UsageError (detail : string)
| ClientError (err : error).

(** [func (o *RootOpts) validate() error], by the text of its error. *)
Definition validate (o : RootOpts) : option string :=
  if String.eqb (APIToken o) EmptyString then Some "api token is required"
  else None.

Definition newline : string := String (ascii_of_N 10) EmptyString.

(** [fmt.Fprintf(stdout, "Article %s:\n%s\n\n", article.ID, article.Title)] *)
Definition article_text (article : Document) : string :=
  String.append "Article "
    (String.append (ID article)
       (String.append ":"
          (String.append newline
             (String.append (Title article)
                (String.append newline newline))))).

(** [for _, article := range page.Results] with that print as its body. *)
Definition print_page (out : string) (page : Page) : string :=
  fold_left (fun out article => String.append out (article_text article))
            (Results page) out.

(** The command's side of an iteration: the server's exchanges, the
    context, how the waits end, what has been written to standard
    output, and the error the loop body returned with, if it did. *)
Record Terminal : Type := mkTerminal {
  server : list Exchange;
  signal : option error;
  timers : list Wait;
  stdout : string;
  returned : option error
}.

(** The environment of the command. The consumer is the body of its
    [for page, err := range it] loop: on an error it returns that error,
    which stops the sequence; on a page it prints the articles and asks
    for more. *)
Definition handle_list : clientE ~> Monads.stateT Terminal (itree void1) :=
  fun T (e : clientE T) (t : Terminal) =>
    match e in clientE T return itree void1 (Terminal * T) with
    | Do params =>
        match server t with
        | [] => ITree.spin
        | x :: xs =>
            Ret (mkTerminal xs (cancel (signal t) (interrupt x)) (timers t)
                   (stdout t) (returned t),
                 reply x)
        end
    | ctx_Err => Ret (t, signal t)
    | Select d =>
        match timers t with
        | [] => ITree.spin
        | TimerFired :: ws =>
            Ret (mkTerminal (server t) (signal t) ws (stdout t) (returned t),
                 time_After)
        | Cancelled cause :: ws =>
            Ret (mkTerminal (server t) (cancel (signal t) (Some cause)) ws
                   (stdout t) (returned t),
                 ctx_Done)
        end
    | Yield page err =>
        match err with
        | Some e =>
            Ret (mkTerminal (server t) (signal t) (timers t) (stdout t) (Some e),
                 false)
        | None =>
            Ret (mkTerminal (server t) (signal t) (timers t)
                   (print_page (stdout t) page) (returned t),
                 true)
        end
    end.

(** [readwisereader.ListParams{}] *)
Definition ListParams_zero : ListParams :=
  mkListParams EmptyString time.zero EmptyString EmptyString EmptyString false.

(** The [Exec] of the list command under [withRootFlags]: validate the
    options, then range over [ListPaginate(ctx, ListParams{})]; the
    result is the error returned, if any. *)
Definition list_Exec (Decode : list Byte.byte -> error + listResponse)
    (o : RootOpts) (t : Terminal) : itree void1 (Terminal * option ExecError) :=
  match validate o with
  | Some detail => Ret (t, Some (UsageError detail))
  | None =>
      let start :=
        mkTerminal (server t) (signal t) (timers t) (stdout t) None in
      st <- interp_state handle_list (ListPaginate Decode ListParams_zero) start ;;
      Ret (fst st, option_map ClientError (returned (fst st)))
  end.

(** The command from the top of the iterator's loop. *)
Definition list_resume (Decode : list Byte.byte -> error + listResponse)
    (params : ListParams) (cursor : string) (t : Terminal)
    : itree void1 (Terminal * unit) :=
  interp_state handle_list (ITree.iter (ListPaginate_loop Decode params) cursor) t.

(** The terminal after an exchange. *)
Definition answered (x : Exchange) (xs : list Exchange) (t : Terminal)
    : Terminal :=
  mkTerminal xs (cancel (signal t) (interrupt x)) (timers t) (stdout t)
    (returned t).

(** The articles of wire pages, in the order of the pages. *)
Definition articles (lrs : list listResponse) : list Document :=
  flat_map (fun lr => Results (Page_ (toListResponse lr))) lrs.

(** Every page has a next cursor. *)
Definition all_continue (lrs : list listResponse) : bool :=
  forallb (fun lr => negb (String.eqb (wNextPageCursor lr) EmptyString)) lrs.

(** [List] fails with [err] on the exchange. *)
Definition fails (Decode : list Byte.byte -> error + listResponse)
    (x : Exchange) (err : error) : Prop :=
  forall params w xs,
    exchanges w = x :: xs ->
    fetch Decode params w ≈ Ret (exchanged params x xs w, inl err).

(** What the command prints for a list of articles. *)
Definition printout (docs : list Document) : string :=
  fold_right (fun article s => String.append (article_text article) s)
             EmptyString docs.

(** The loop body of [ListPaginate] below its call of [List]
    (lines 80-110), by what the call returned. *)
Definition after_fetch (cursor : string) (r : error + ListResponse)
    : itree clientE (string + unit) :=
  match r with
  | inl err =>
      match errors_As err with
      | Some rle =>
          e <- ITree.trigger ctx_Err ;;
          match e with
          | Some _ =>
              e' <- ITree.trigger ctx_Err ;;
              ITree.trigger (Yield Page_zero e') ;;
              Ret (inr tt)
          | None =>
              c <- ITree.trigger (Select (RetryAfter rle)) ;;
              match c with
              | time_After => Ret (inl cursor)
              | ctx_Done =>
                  e' <- ITree.trigger ctx_Err ;;
                  ITree.trigger (Yield Page_zero e') ;;
                  Ret (inr tt)
              end
          end
      | None =>
          ITree.trigger (Yield Page_zero (Some err)) ;;
          Ret (inr tt)
      end
  | inr resp =>
      more <- ITree.trigger (Yield (Page_ resp) None) ;;
      if negb more then Ret (inr tt)
      else if String.eqb (NextPageCursor resp) EmptyString then Ret (inr tt)
      else Ret (inl (NextPageCursor resp))
  end.

Definition sample_terminal (xs : list Exchange) : Terminal :=
  mkTerminal xs None [] EmptyString None.

(** The command against two pages and an exchange it never reaches. *)
Definition two_pages_terminal : Terminal :=
  sample_terminal [sample_200 Byte.x01; sample_200 Byte.x02; sample_429 "1"].

(** The command against a first page and a rate limit, interrupted
    while it waits. *)
Definition interrupted_terminal : Terminal :=
  mkTerminal [sample_200 Byte.x01; sample_429 "30"; sample_200 Byte.x02]
    None [Cancelled Canceled] EmptyString None.

(** The command against a first page and a server error. *)
Definition failing_terminal : Terminal :=
  sample_terminal
    [sample_200 Byte.x01;
     mkExchange (inr (mkResponse 500 [] (inr [Byte.x01]))) None;
     sample_200 Byte.x02].

(** ** The transport decorator *)

(** [func (h Header) Set(key, value string)]: the key, in canonical
    form, is bound to the one value. *)
Definition Header_Set (h : Header) (key value : string) : Header :=
  (key, [value]) :: filter (fun kv => negb (String.eqb (fst kv) key)) h.

(** [*http.Request], as far as the decorator touches it. *)
Record Request : Type := mkRequest {
  reqURL : string;
  reqHeader : Header
}.

(** [authTransport]: the embedded transport, as what its [RoundTrip]
    returns for a request, and the header value. *)
Record authTransport : Type := mkAuthTransport {
  Transport : Request -> option Response * option error;
  authorizationHeader : string
}.

(** How a call ends. *)
Inductive Outcome (A : Type) : Type :=
| Returns (a : A)
| Panics.

Arguments Returns {A} a.
Arguments Panics {A}.

(** [func (t *authTransport) RoundTrip(req)]: the request as it is
    handed on, the lines printed, and the result. The two dump functions
    are those of [httputil]; [DumpResponse] dereferences its argument,
    so a nil response under debugging is a panic. *)
Definition RoundTrip (DumpRequestOut : Request -> string)
    (DumpResponse : Response -> string) (READWISE_DEBUG : string)
    (t : authTransport) (req : Request)
    : Request * list string * Outcome (option Response * option error) :=
  let req :=
    mkRequest (reqURL req)
      (Header_Set (reqHeader req) "Authorization" (authorizationHeader t)) in
  let debug := negb (String.eqb READWISE_DEBUG EmptyString) in
  let (resp, err) := Transport t req in
  if debug then
    let reqdump := DumpRequestOut req in
    match resp with
    | Some r => (req, [reqdump; DumpResponse r], Returns (resp, err))
    | None => (req, [reqdump], Panics)
    end
  else (req, [], Returns (resp, err)).

(** The transport that [NewClient(token)] installs over [transport]. *)
Definition NewClient (transport : Request -> option Response * option error)
    (token : string) : authTransport :=
  mkAuthTransport transport (String.append "Token " token).

(** A transport that answers 200 to requests with the right token and
    401 to the others. *)
Definition sample_transport (req : Request) : option Response * option error :=
  if String.eqb (Header_Get (reqHeader req) "Authorization") "Token secret"
  then (Some (mkResponse 200 [] (inr [Byte.x02])), None)
  else (Some (mkResponse 401 [] (inr [])), None).

Definition sample_request : Request :=
  mkRequest "https://readwise.io/api/v3/list"
    [("Accept", ["application/json"]); ("Authorization", ["Token stale"; "x"])].

(** * Properties *)

(** A run that [burn] sees return does return. *)
Lemma burn_sound {R : Type} (n : nat) : forall (t : itree void1 R) (r : R),
  burn n t = Some r -> t ≈ Ret r.
Proof.
  induction n as [| n IH]; intros t r H; cbn in H; [discriminate |].
  destruct (observe t) as [r0 | t' | X e k] eqn:E.
  - injection H as <-. rewrite (itree_eta t), E. reflexivity.
  - rewrite (itree_eta t), E, tau_eutt. apply IH, H.
  - destruct e.
Qed.

(** A run returns one result. *)
Lemma returns_once {R : Type} (t : itree void1 R) (a b : R) :
  t ≈ Ret a -> t ≈ Ret b -> a = b.
Proof.
  intros Ha Hb. rewrite Ha in Hb. apply eutt_inv_Ret in Hb. exact Hb.
Qed.

(** [errors_As] walks the [Unwrap] chain. *)
Lemma errors_As_Unwrap err :
  errors_As err
  = match err with
    | RateLimited rle => Some rle
    | _ => match Unwrap err with
           | Some w => errors_As w
           | None => None
           end
    end.
Proof. destruct err; reflexivity. Qed.

Lemma mul_Second_in_range n :
  -9223372036 <= n <= 9223372036 ->
  time.mul n time.Second = n * time.Second.
Proof.
  intros H. unfold time.mul, wrap64.
  change time.Second with 1000000000.
  change (2 ^ 63) with 9223372036854775808.
  change (2 ^ 64) with 18446744073709551616.
  rewrite Z.mod_small by lia. lia.
Qed.

Section Runs.

Variable Decode : list Byte.byte -> error + listResponse.

Lemma run_Do params w x xs :
  exchanges w = x :: xs ->
  interp_state handle (ITree.trigger (Do params)) w
  ≈ Ret (exchanged params x xs w, reply x).
Proof.
  intros H. rewrite interp_state_trigger. cbn. rewrite H. reflexivity.
Qed.

Lemma run_ctx_Err w :
  interp_state handle (ITree.trigger ctx_Err) w ≈ Ret (w, cancelled w).
Proof. rewrite interp_state_trigger. reflexivity. Qed.

Lemma run_Select d w c ws :
  waits w = c :: ws ->
  interp_state handle (ITree.trigger (Select d)) w
  ≈ Ret (waited d c ws w,
         match c with TimerFired => time_After | Cancelled _ => ctx_Done end).
Proof.
  intros H. rewrite interp_state_trigger. cbn. rewrite H. reflexivity.
Qed.

Lemma run_Yield page err w b bs :
  demand w = b :: bs ->
  interp_state handle (ITree.trigger (Yield page err)) w
  ≈ Ret (yielded page err bs w, b).
Proof.
  intros H. rewrite interp_state_trigger. cbn. rewrite H. reflexivity.
Qed.

Lemma List_rate_limited params w x xs resp b seconds :
  exchanges w = x :: xs ->
  reply x = inr resp ->
  Body resp = inr b ->
  StatusCode resp = StatusTooManyRequests ->
  strconv.Atoi (Header_Get (Header_ resp) "Retry-After") = inr seconds ->
  fetch Decode params w
  ≈ Ret (exchanged params x xs w,
         inl (RateLimited {| RetryAfter := time.mul seconds time.Second |})).
Proof.
  intros Hx Hr Hb Hs Ha. unfold fetch, List, list_.
  rewrite bind_bind, interp_state_bind, (run_Do _ _ _ _ Hx), bind_ret_l.
  cbn. rewrite Hr, Hb, bind_ret_l. cbn. rewrite Hs. cbn. rewrite Ha.
  rewrite interp_state_ret. reflexivity.
Qed.

Lemma List_retry_after_invalid params w x xs resp b err :
  exchanges w = x :: xs ->
  reply x = inr resp ->
  Body resp = inr b ->
  StatusCode resp = StatusTooManyRequests ->
  strconv.Atoi (Header_Get (Header_ resp) "Retry-After") = inl err ->
  fetch Decode params w
  ≈ Ret (exchanged params x xs w,
         inl (Errorf_v_w "invalid retry-after header: %v: %w"
                (Header_Get (Header_ resp) "Retry-After") (NumError err))).
Proof.
  intros Hx Hr Hb Hs Ha. unfold fetch, List, list_.
  rewrite bind_bind, interp_state_bind, (run_Do _ _ _ _ Hx), bind_ret_l.
  cbn. rewrite Hr, Hb, bind_ret_l. cbn. rewrite Hs. cbn. rewrite Ha.
  rewrite interp_state_ret. reflexivity.
Qed.

Lemma List_ok params w x xs resp b lr :
  exchanges w = x :: xs ->
  reply x = inr resp ->
  Body resp = inr b ->
  StatusCode resp = StatusOK ->
  Decode b = inr lr ->
  fetch Decode params w
  ≈ Ret (exchanged params x xs w, inr (toListResponse lr)).
Proof.
  intros Hx Hr Hb Hs Hd. unfold fetch, List, list_.
  rewrite bind_bind, interp_state_bind, (run_Do _ _ _ _ Hx), bind_ret_l.
  cbn. rewrite Hr, Hb, bind_ret_l. cbn. rewrite Hs. cbn. rewrite Hd.
  rewrite interp_state_ret. reflexivity.
Qed.

(** *** One pass of the loop, by what the fetch returned *)

Section Pass.

Variables (params : ListParams) (cursor : string) (w w1 : World).
Variable r : error + ListResponse.
Hypothesis fetched :
  fetch Decode (set_PageCursor params cursor) w ≈ Ret (w1, r).

Lemma pass_unfold :
  resume Decode params cursor w
  ≈ ITree.bind
      (interp_state handle
         (match r with
          | inl err =>
              match errors_As err with
              | Some rle =>
                  e <- ITree.trigger ctx_Err ;;
                  match e with
                  | Some _ =>
                      e' <- ITree.trigger ctx_Err ;;
                      ITree.trigger (Yield Page_zero e') ;;
                      Ret (inr tt)
                  | None =>
                      c <- ITree.trigger (Select (RetryAfter rle)) ;;
                      match c with
                      | time_After => Ret (inl cursor)
                      | ctx_Done =>
                          e' <- ITree.trigger ctx_Err ;;
                          ITree.trigger (Yield Page_zero e') ;;
                          Ret (inr tt)
                      end
                  end
              | None =>
                  ITree.trigger (Yield Page_zero (Some err)) ;;
                  Ret (inr tt)
              end
          | inr resp =>
              more <- ITree.trigger (Yield (Page_ resp) None) ;;
              if negb more then Ret (inr tt)
              else if String.eqb (NextPageCursor resp) EmptyString
                   then Ret (inr tt)
                   else Ret (inl (NextPageCursor resp))
          end) w1)
      (fun st =>
         match snd st with
         | inl cursor' => resume Decode params cursor' (fst st)
         | inr tt => Ret (fst st, tt)
         end).
Proof.
  unfold resume. rewrite unfold_iter. unfold ListPaginate_loop at 1.
  rewrite bind_bind, interp_state_bind.
  unfold fetch in fetched. rewrite fetched, bind_ret_l. cbn.
  rewrite interp_state_bind.
  apply eutt_eq_bind. intros [w2 [c | []]]; cbn.
  - rewrite interp_state_tau, tau_eutt. reflexivity.
  - rewrite interp_state_ret. reflexivity.
Qed.

(** The fetch was rate limited, the context is live and the timer
    fires: round again with the same loop variable. *)
Lemma pass_retry err rle ws :
  r = inl err ->
  errors_As err = Some rle ->
  cancelled w1 = None ->
  waits w1 = TimerFired :: ws ->
  resume Decode params cursor w
  ≈ resume Decode params cursor (waited (RetryAfter rle) TimerFired ws w1).
Proof.
  intros Hr Has Hc Hw. rewrite pass_unfold. rewrite Hr, Has.
  rewrite interp_state_bind, run_ctx_Err, bind_ret_l. cbn. rewrite Hc.
  rewrite interp_state_bind, (run_Select _ _ _ _ Hw), bind_ret_l. cbn.
  rewrite interp_state_ret, bind_ret_l. reflexivity.
Qed.

(** The fetch was rate limited and the context is already cancelled. *)
Lemma pass_cancelled_before err rle e b bs :
  r = inl err ->
  errors_As err = Some rle ->
  cancelled w1 = Some e ->
  demand w1 = b :: bs ->
  resume Decode params cursor w
  ≈ Ret (yielded Page_zero (Some e) bs w1, tt).
Proof.
  intros Hr Has Hc Hd. rewrite pass_unfold. rewrite Hr, Has.
  rewrite interp_state_bind, run_ctx_Err, bind_ret_l. cbn. rewrite Hc.
  rewrite interp_state_bind, run_ctx_Err, bind_ret_l. cbn. rewrite Hc.
  rewrite interp_state_bind, (run_Yield _ _ _ _ _ Hd), bind_ret_l. cbn.
  rewrite interp_state_ret, bind_ret_l. reflexivity.
Qed.

(** The fetch was rate limited and the context is cancelled during
    the wait. *)
Lemma pass_cancelled_waiting err rle cause ws b bs :
  r = inl err ->
  errors_As err = Some rle ->
  cancelled w1 = None ->
  waits w1 = Cancelled cause :: ws ->
  demand w1 = b :: bs ->
  resume Decode params cursor w
  ≈ Ret (yielded Page_zero (Some cause) bs
           (waited (RetryAfter rle) (Cancelled cause) ws w1), tt).
Proof.
  intros Hr Has Hc Hw Hd. rewrite pass_unfold. rewrite Hr, Has.
  rewrite interp_state_bind, run_ctx_Err, bind_ret_l. cbn. rewrite Hc.
  rewrite interp_state_bind, (run_Select _ _ _ _ Hw), bind_ret_l. cbn.
  rewrite interp_state_bind, run_ctx_Err, bind_ret_l. cbn.
  replace (cancelled (waited (RetryAfter rle) (Cancelled cause) ws w1))
    with (Some cause) by (unfold waited; cbn; rewrite Hc; reflexivity).
  rewrite interp_state_bind.
  rewrite (run_Yield _ _ _ b bs) by exact Hd.
  rewrite bind_ret_l. cbn.
  rewrite interp_state_ret, bind_ret_l. reflexivity.
Qed.

(** The fetch failed with anything else. *)
Lemma pass_error err b bs :
  r = inl err ->
  errors_As err = None ->
  demand w1 = b :: bs ->
  resume Decode params cursor w
  ≈ Ret (yielded Page_zero (Some err) bs w1, tt).
Proof.
  intros Hr Has Hd. rewrite pass_unfold. rewrite Hr, Has.
  rewrite interp_state_bind, (run_Yield _ _ _ _ _ Hd), bind_ret_l. cbn.
  rewrite interp_state_ret, bind_ret_l. reflexivity.
Qed.

(** The fetch returned a page: it is yielded, and lines 102-110
    decide on the consumer's answer. *)
Lemma pass_page resp b bs :
  r = inr resp ->
  demand w1 = b :: bs ->
  resume Decode params cursor w
  ≈ proceed Decode params resp b (yielded (Page_ resp) None bs w1).
Proof.
  intros Hr Hd. rewrite pass_unfold. rewrite Hr.
  rewrite interp_state_bind, (run_Yield _ _ _ _ _ Hd), bind_ret_l. cbn.
  unfold proceed.
  destruct b; cbn; [destruct (String.eqb _ _) |];
    rewrite interp_state_ret, bind_ret_l; reflexivity.
Qed.

End Pass.

(** *** The whole chain of pages *)

Lemma chain_resume params lrs : forall xs cursor w rest b bs,
  exchanges w = xs ++ rest ->
  Forall2 (serves Decode) xs lrs ->
  is_chain lrs = true ->
  demand w = repeat true (pred (Datatypes.length lrs)) ++ b :: bs ->
  exists w',
    resume Decode params cursor w ≈ Ret (w', tt) /\
    trace w' = trace w ++ paging params cursor lrs /\
    exchanges w' = rest /\
    waits w' = waits w /\
    demand w' = bs.
Proof.
  induction lrs as [| lr lrs IH]; intros xs cursor w rest b bs Hx Hs Hc Hd.
  - discriminate.
  - inversion Hs as [| x lr' xs' lrs' (resp & body & Hr & Hst & Hb & Hdec) Hs']; subst.
    pose proof (List_ok (set_PageCursor params cursor) w x (xs' ++ rest)
                  resp body lr Hx Hr Hb Hst Hdec) as Hf.
    destruct lrs as [| lr2 lrs].
    + inversion Hs'; subst. cbn in Hc, Hd.
      exists (yielded (Page_ (toListResponse lr)) None bs
                (exchanged (set_PageCursor params cursor) x rest w)).
      split; [| unfold yielded, exchanged; cbn; rewrite <- app_assoc; auto].
      rewrite (pass_page _ _ _ _ _ Hf _ b bs eq_refl Hd).
      unfold proceed. apply String.eqb_eq in Hc. cbn. rewrite Hc.
      destruct b; reflexivity.
    + cbn [is_chain] in Hc. apply andb_prop in Hc as [Hne Hc].
      cbn [Datatypes.length pred repeat app] in Hd.
      destruct (IH xs' (wNextPageCursor lr)
                  (yielded (Page_ (toListResponse lr)) None
                     (repeat true (Datatypes.length lrs) ++ b :: bs)
                     (exchanged (set_PageCursor params cursor) x (xs' ++ rest) w))
                  rest b bs eq_refl Hs' Hc eq_refl)
        as (w' & Hrun & Ht & He & Hw & Hdm).
      exists w'. split; [| split; [| auto]].
      * rewrite (pass_page _ _ _ _ _ Hf _ true _ eq_refl Hd).
        unfold proceed. cbn [negb toListResponse NextPageCursor].
        apply negb_true_iff in Hne. rewrite Hne. exact Hrun.
      * rewrite Ht. unfold yielded, exchanged; cbn. rewrite <- !app_assoc.
        reflexivity.
Qed.

(** C1. When the server answers with a chain of pages whose
    next-cursors are non-empty up to the last and empty at the last,
    and the consumer asks for all of them, the iterator terminates
    having requested and yielded exactly those pages in order, each
    with a nil error and each request carrying the cursor of the page
    before; the exchanges after the chain are left untouched and no
    wait is performed. *)
Theorem ListPaginate_yields_chain params w xs rest lrs b bs :
  exchanges w = xs ++ rest ->
  Forall2 (serves Decode) xs lrs ->
  is_chain lrs = true ->
  demand w = repeat true (pred (Datatypes.length lrs)) ++ b :: bs ->
  exists w',
    run Decode params w ≈ Ret (w', tt) /\
    trace w' = trace w ++ paging params (PageCursor params) lrs /\
    exchanges w' = rest /\
    waits w' = waits w /\
    demand w' = bs.
Proof.
  intros Hx Hs Hc Hd.
  exact (chain_resume params lrs xs (PageCursor params) w rest b bs Hx Hs Hc Hd).
Qed.

(** *** Rate limits and cancellation *)

Lemma rate_limits_fetch params w x xs seconds :
  exchanges w = x :: xs ->
  rate_limits x seconds ->
  fetch Decode params w
  ≈ Ret (exchanged params x xs w,
         inl (RateLimited {| RetryAfter := time.mul seconds time.Second |})).
Proof.
  intros Hx (raw & (resp & b & Hr & Hs & Hb & Hh) & Ha).
  apply (List_rate_limited params w x xs resp b seconds); auto.
  rewrite Hh. exact Ha.
Qed.

Lemma serves_fetch params w x xs lr :
  exchanges w = x :: xs ->
  serves Decode x lr ->
  fetch Decode params w ≈ Ret (exchanged params x xs w, inr (toListResponse lr)).
Proof.
  intros Hx (resp & b & Hr & Hs & Hb & Hd).
  apply (List_ok params w x xs resp b lr); auto.
Qed.

(** C2. From any state of the iteration, however many times in a row
    the fetch at the current cursor is rate limited, as long as the
    context stays live and each wait runs to its end, every retry
    issues the request with the same parameters (the same cursor), one
    wait of the signalled duration lies between two attempts, and the
    page of the first success is yielded; after that the loop goes on
    as after any page. No count bounds the retries. *)
Theorem ListPaginate_retries_same_cursor params cursor :
  forall limited secs w x lr rest ws b bs,
  exchanges w = limited ++ x :: rest ->
  Forall2 rate_limits limited secs ->
  cancelled w = None ->
  Forall (fun l => interrupt l = None) limited ->
  waits w = repeat TimerFired (Datatypes.length limited) ++ ws ->
  serves Decode x lr ->
  demand w = b :: bs ->
  exists w',
    resume Decode params cursor w
    ≈ proceed Decode params (toListResponse lr) b w' /\
    trace w'
    = trace w
      ++ retrying (set_PageCursor params cursor)
           (List.map (fun s => time.mul s time.Second) secs)
      ++ [Requested (set_PageCursor params cursor);
          Yielded (Page_ (toListResponse lr)) None] /\
    exchanges w' = rest /\
    waits w' = ws /\
    demand w' = bs.
Proof.
  induction limited as [| l limited IH];
    intros secs w x lr rest ws b bs Hx Hl Hc Hi Hw Hs Hd.
  - inversion Hl; subst. cbn in Hx, Hw.
    pose proof (serves_fetch (set_PageCursor params cursor) w x rest lr Hx Hs) as Hf.
    exists (yielded (Page_ (toListResponse lr)) None bs
              (exchanged (set_PageCursor params cursor) x rest w)).
    split; [| unfold yielded, exchanged; cbn; rewrite <- app_assoc; auto].
    apply (pass_page _ _ _ _ _ Hf _ b bs eq_refl Hd).
  - inversion Hl as [| l' s limited' secs' Hrl Hl']; subst.
    inversion Hi as [| l' limited' Hil Hi']; subst.
    cbn in Hx, Hw.
    pose proof (rate_limits_fetch (set_PageCursor params cursor) w l
                  (limited ++ x :: rest) s Hx Hrl) as Hf.
    set (w1 := exchanged (set_PageCursor params cursor) l
                 (limited ++ x :: rest) w) in *.
    assert (Hc1 : cancelled w1 = None)
      by (unfold w1, exchanged; cbn; rewrite Hc, Hil; reflexivity).
    destruct (IH secs' (waited (time.mul s time.Second) TimerFired
                          (repeat TimerFired (Datatypes.length limited) ++ ws) w1)
                x lr rest ws b bs eq_refl Hl' Hc1 Hi' eq_refl Hs Hd)
      as (w' & Hrun & Ht & He & Hws & Hdm).
    exists w'. split; [| split; [| auto]].
    + rewrite (pass_retry _ _ _ _ _ Hf _ _ _ eq_refl eq_refl Hc1 Hw).
      exact Hrun.
    + rewrite Ht. unfold waited, w1, exchanged, retrying; cbn.
      rewrite <- !app_assoc. reflexivity.
Qed.

(** C3. When the fetch is rate limited and the context, live until
    then, is cancelled during the wait, the iterator yields one item,
    the zero page with the cancellation error, and returns whatever
    the consumer answers: nothing is requested after it. *)
Theorem ListPaginate_cancelled_while_waiting
    params cursor w x xs seconds cause ws b bs :
  exchanges w = x :: xs ->
  rate_limits x seconds ->
  cancel (cancelled w) (interrupt x) = None ->
  waits w = Cancelled cause :: ws ->
  demand w = b :: bs ->
  exists w',
    resume Decode params cursor w ≈ Ret (w', tt) /\
    trace w'
    = trace w
      ++ [Requested (set_PageCursor params cursor);
          Waited (time.mul seconds time.Second) ctx_Done;
          Yielded Page_zero (Some cause)] /\
    exchanges w' = xs /\
    waits w' = ws /\
    demand w' = bs.
Proof.
  intros Hx Hrl Hc Hw Hd.
  pose proof (rate_limits_fetch (set_PageCursor params cursor) w x xs
                seconds Hx Hrl) as Hf.
  eexists. split.
  - apply (pass_cancelled_waiting _ _ _ _ _ Hf _ _ cause ws b bs
             eq_refl eq_refl Hc Hw Hd).
  - unfold yielded, waited, exchanged; cbn. rewrite <- !app_assoc. auto.
Qed.

(** C4. When the context is already cancelled as the rate-limit
    signal comes back, the iterator yields the zero page with the
    context's error at once and returns: no wait is performed and
    nothing more is requested. *)
Theorem ListPaginate_cancelled_before_wait
    params cursor w x xs seconds e b bs :
  exchanges w = x :: xs ->
  rate_limits x seconds ->
  cancel (cancelled w) (interrupt x) = Some e ->
  demand w = b :: bs ->
  exists w',
    resume Decode params cursor w ≈ Ret (w', tt) /\
    trace w'
    = trace w
      ++ [Requested (set_PageCursor params cursor);
          Yielded Page_zero (Some e)] /\
    exchanges w' = xs /\
    waits w' = waits w /\
    demand w' = bs.
Proof.
  intros Hx Hrl Hc Hd.
  pose proof (rate_limits_fetch (set_PageCursor params cursor) w x xs
                seconds Hx Hrl) as Hf.
  eexists. split.
  - apply (pass_cancelled_before _ _ _ _ _ Hf _ _ e b bs eq_refl eq_refl Hc Hd).
  - unfold yielded, exchanged; cbn. rewrite <- !app_assoc. auto.
Qed.

(** C6. When the consumer answers false to a page, the iterator
    returns at once, whatever the next-cursor of that page: the
    remaining exchanges are untouched and nothing else is yielded. *)
Theorem ListPaginate_stops_when_consumer_stops
    params cursor w x xs lr bs :
  exchanges w = x :: xs ->
  serves Decode x lr ->
  demand w = false :: bs ->
  exists w',
    resume Decode params cursor w ≈ Ret (w', tt) /\
    trace w'
    = trace w
      ++ [Requested (set_PageCursor params cursor);
          Yielded (Page_ (toListResponse lr)) None] /\
    exchanges w' = xs /\
    waits w' = waits w /\
    demand w' = bs.
Proof.
  intros Hx Hs Hd.
  pose proof (serves_fetch (set_PageCursor params cursor) w x xs lr Hx Hs) as Hf.
  eexists. split.
  - rewrite (pass_page _ _ _ _ _ Hf _ false bs eq_refl Hd).
    unfold proceed. cbn [negb]. reflexivity.
  - unfold yielded, exchanged; cbn. rewrite <- !app_assoc. auto.
Qed.

(** *** The Retry-After header *)

(** C5, as amended. On a 429 whose Retry-After header [strconv.Atoi]
    refuses, [List] fails with the wrapping error that carries the raw
    header, which is no rate-limit signal, and the iterator yields it
    as its only and last item without a wait or a second request. On
    a 429 whose header reads as [n] with [|n| <= 9223372036], [List]
    returns the rate-limit signal with a duration of [n] seconds. *)
Theorem List_429_retry_after params cursor w x xs raw :
  exchanges w = x :: xs ->
  throttles x raw ->
  (forall err, strconv.Atoi raw = inl err ->
     let e := Errorf_v_w "invalid retry-after header: %v: %w" raw (NumError err) in
     fetch Decode (set_PageCursor params cursor) w
     ≈ Ret (exchanged (set_PageCursor params cursor) x xs w, inl e) /\
     errors_As e = None /\
     forall b bs, demand w = b :: bs ->
       exists w',
         resume Decode params cursor w ≈ Ret (w', tt) /\
         trace w'
         = trace w ++ [Requested (set_PageCursor params cursor);
                       Yielded Page_zero (Some e)] /\
         exchanges w' = xs /\
         waits w' = waits w /\
         demand w' = bs) /\
  (forall n, strconv.Atoi raw = inr n ->
     -9223372036 <= n <= 9223372036 ->
     fetch Decode (set_PageCursor params cursor) w
     ≈ Ret (exchanged (set_PageCursor params cursor) x xs w,
            inl (RateLimited {| RetryAfter := n * time.Second |}))).
Proof.
  intros Hx (resp & b0 & Hr & Hs & Hb & Hh). split.
  - intros err Ha e.
    assert (Hf : fetch Decode (set_PageCursor params cursor) w
                 ≈ Ret (exchanged (set_PageCursor params cursor) x xs w, inl e)).
    { unfold e. rewrite <- Hh.
      apply (List_retry_after_invalid _ w x xs resp b0 err); auto.
      rewrite Hh. exact Ha. }
    split; [exact Hf | split; [reflexivity |]].
    intros b bs Hd. eexists. split.
    + apply (pass_error _ _ _ _ _ Hf e b bs eq_refl eq_refl Hd).
    + unfold yielded, exchanged; cbn. rewrite <- !app_assoc. auto.
  - intros n Ha Hn. rewrite <- (mul_Second_in_range n Hn).
    apply rate_limits_fetch; auto.
    exists raw. split; [exists resp, b0; auto | exact Ha].
Qed.

(** C9, as amended. A 429 whose header reads as any integer [n], of
    either sign, makes [List] return a rate-limit signal, never the
    header error. For [|n| <= 9223372036] its duration is [n] seconds;
    for such an [n <= 0] the duration is not positive, and with a live
    context and the timer firing the iterator goes round again with
    the same cursor instead of failing. *)
Theorem List_429_any_integer params cursor w x xs raw n :
  exchanges w = x :: xs ->
  throttles x raw ->
  strconv.Atoi raw = inr n ->
  exists rle,
    fetch Decode (set_PageCursor params cursor) w
    ≈ Ret (exchanged (set_PageCursor params cursor) x xs w,
           inl (RateLimited rle)) /\
    errors_As (RateLimited rle) = Some rle /\
    (-9223372036 <= n <= 9223372036 -> RetryAfter rle = n * time.Second) /\
    (-9223372036 <= n <= 0 ->
       RetryAfter rle <= 0 /\
       forall ws,
         cancel (cancelled w) (interrupt x) = None ->
         waits w = TimerFired :: ws ->
         resume Decode params cursor w
         ≈ resume Decode params cursor
             (waited (RetryAfter rle) TimerFired ws
                (exchanged (set_PageCursor params cursor) x xs w))).
Proof.
  intros Hx Ht Ha.
  assert (Hf : fetch Decode (set_PageCursor params cursor) w
               ≈ Ret (exchanged (set_PageCursor params cursor) x xs w,
                      inl (RateLimited {| RetryAfter := time.mul n time.Second |})))
    by (apply rate_limits_fetch; [exact Hx | exists raw; auto]).
  exists {| RetryAfter := time.mul n time.Second |}.
  split; [exact Hf | split; [reflexivity | split]].
  - apply mul_Second_in_range.
  - intros Hn. cbn [RetryAfter]. split.
    + rewrite mul_Second_in_range by lia.
      change time.Second with 1000000000. lia.
    + intros ws Hc Hw.
      apply (pass_retry _ _ _ _ _ Hf _ _ ws eq_refl eq_refl Hc Hw).
Qed.

End Runs.

(** ** The conversion of a wire response *)

Lemma append_each_map {A B : Type} (f : A -> B) (l : list A) : forall acc,
  fold_left (fun results a => results ++ [f a]) l acc = acc ++ List.map f l.
Proof.
  induction l as [| a l IH]; intros acc; cbn.
  - rewrite app_nil_r. reflexivity.
  - rewrite IH, <- app_assoc. reflexivity.
Qed.

(** C10. [toListResponse] keeps the count and the next cursor, and its
    results are the wire documents converted one by one: as many, in the
    same order, the i-th from the i-th, each field of a converted
    document being the field of the same name of the wire document. *)
Theorem toListResponse_preserves (lr : listResponse) :
  Count (Page_ (toListResponse lr)) = wCount lr /\
  NextPageCursor (toListResponse lr) = wNextPageCursor lr /\
  Results (Page_ (toListResponse lr)) = List.map toDocument (wResults lr) /\
  Datatypes.length (Results (Page_ (toListResponse lr)))
  = Datatypes.length (wResults lr) /\
  (forall i, nth_error (Results (Page_ (toListResponse lr))) i
             = option_map toDocument (nth_error (wResults lr) i)) /\
  (forall dr,
     ID (toDocument dr) = wID dr /\
     URL (toDocument dr) = wURL dr /\
     SourceURL (toDocument dr) = wSourceURL dr /\
     Title (toDocument dr) = wTitle dr /\
     Author (toDocument dr) = wAuthor dr /\
     Source (toDocument dr) = wSource dr /\
     Category_ (toDocument dr) = wCategory dr /\
     Location_ (toDocument dr) = wLocation dr /\
     Tags_ (toDocument dr) = wTags dr /\
     SiteName (toDocument dr) = wSiteName dr /\
     WordCount (toDocument dr) = wWordCount dr /\
     CreatedAt (toDocument dr) = wCreatedAt dr /\
     UpdatedAt (toDocument dr) = wUpdatedAt dr /\
     Notes (toDocument dr) = wNotes dr /\
     PublishedDate (toDocument dr) = wPublishedDate dr /\
     Summary (toDocument dr) = wSummary dr /\
     ImageURL (toDocument dr) = wImageURL dr /\
     ParentID (toDocument dr) = wParentID dr /\
     ReadingProgress (toDocument dr) = wReadingProgress dr /\
     FirstOpenedAt (toDocument dr) = wFirstOpenedAt dr /\
     LastOpenedAt (toDocument dr) = wLastOpenedAt dr /\
     SavedAt (toDocument dr) = wSavedAt dr /\
     LastMovedAt (toDocument dr) = wLastMovedAt dr).
Proof.
  assert (H : Results (Page_ (toListResponse lr)) = List.map toDocument (wResults lr))
    by (unfold toListResponse; cbn; rewrite append_each_map; reflexivity).
  split; [reflexivity | split; [reflexivity | split; [exact H |]]].
  split; [rewrite H; apply length_map |].
  split; [intros i; rewrite H; apply nth_error_map |].
  intros dr. repeat split.
Qed.

(** ** Instants *)

Lemma wrap64_small z : minInt64 <= z <= maxInt64 -> wrap64 z = z.
Proof.
  unfold minInt64, maxInt64, wrap64. intros H.
  change (2 ^ 63) with 9223372036854775808 in *.
  change (2 ^ 64) with 18446744073709551616.
  rewrite Z.mod_small by lia. lia.
Qed.

Lemma nsec_small n : 0 <= n < 1000000000 -> Z.land n time.nsecMask = n.
Proof.
  intros H. change time.nsecMask with (Z.ones 30).
  rewrite Z.land_ones by lia. apply Z.mod_small.
  change (2 ^ 30) with 1073741824. lia.
Qed.

(** [UnixMilli] on a millisecond count split into seconds and a rest. *)
Lemma UnixMilli_split ms :
  minInt64 <= ms <= maxInt64 ->
  exists q r,
    ms = 1000 * q + r /\ 0 <= r < 1000 /\
    time.UnixMilli ms = time.mkTime (r * 1000000) (q + time.unixToInternal) time.Local.
Proof.
  unfold minInt64, maxInt64. change (2 ^ 63) with 9223372036854775808.
  intros H. unfold time.UnixMilli, time.Unix, time.unixTime.
  pose proof (Z.quot_rem' ms 1000) as E.
  assert (Hr : -1000 < Z.rem ms 1000 < 1000)
    by (pose proof (Z.rem_bound_abs ms 1000); lia).
  set (q := Z.quot ms 1000) in *. set (r := Z.rem ms 1000) in *.
  change time.unixToInternal with 62135596800.
  assert (Hw : forall z, -9223372036854775808 <= z <= 9223372036854775807 ->
                         wrap64 z = z)
    by (intros z Hz; apply wrap64_small; unfold minInt64, maxInt64;
        change (2 ^ 63) with 9223372036854775808; lia).
  rewrite (Hw (r * 1000000)) by lia.
  destruct (Z.ltb_spec (r * 1000000) 0) as [Hneg | Hpos]; cbn [orb].
  - assert (Hn : Z.quot (r * 1000000) 1000000000 = 0)
      by (apply Z.quot_small_iff; lia).
    rewrite Hn. change (0 * 1000000000) with 0.
    rewrite (Hw 0), Z.sub_0_r, Z.add_0_r, (Hw q), (Hw (r * 1000000)) by lia.
    destruct (Z.ltb_spec (r * 1000000) 0); [| lia].
    rewrite (Hw (q - 1)), (Hw (r * 1000000 + 1000000000)),
      (Hw (q - 1 + 62135596800)) by lia.
    exists (q - 1), (r + 1000). split; [lia | split; [lia |]].
    f_equal; lia.
  - destruct (Z.leb_spec 1000000000 (r * 1000000)); [lia |].
    rewrite (Hw (q + 62135596800)) by lia.
    exists q, r. split; [lia | split; [lia | reflexivity]].
Qed.

(** An instant built by [UnixMilli] is the zero instant for exactly one
    count of milliseconds: that of January 1 of year 1. *)
Lemma UnixMilli_IsZero ms :
  minInt64 <= ms <= maxInt64 ->
  time.IsZero (time.UnixMilli ms) = (ms =? -62135596800000).
Proof.
  intros H. destruct (UnixMilli_split ms H) as (q & r & E & Hr & ->).
  unfold time.IsZero, time.sec, time.nsec. cbn [time.ext time.wall].
  rewrite nsec_small by lia. change time.unixToInternal with 62135596800.
  destruct (Z.eqb_spec ms (-62135596800000)) as [Hm | Hm].
  - assert (q = -62135596800 /\ r = 0) as [-> ->] by lia. reflexivity.
  - destruct (Z.eqb_spec (q + 62135596800) 0); [| reflexivity].
    destruct (Z.eqb_spec (r * 1000000) 0); [lia | reflexivity].
Qed.

(** ** Dates *)

Section DateOnly.

Lemma code_bound c : 0 <= code c < 256.
Proof.
  unfold code. pose proof (N_ascii_bounded c). lia.
Qed.

Lemma code_inj c n : code c = Z.of_N n -> c = ascii_of_N n.
Proof.
  unfold code. intros H. apply N2Z.inj in H.
  rewrite <- H. symmetry. apply ascii_N_embedding.
Qed.

Lemma getnum_fixed_inv s n rest :
  time.getnum s true = Some (n, rest) ->
  exists c0 c1,
    s = String c0 (String c1 rest) /\ digit c0 /\ digit c1 /\
    n = (code c0 - 48) * 10 + (code c1 - 48).
Proof.
  unfold time.getnum, time.isDigit, time.byteAt, digit, code.
  destruct s as [| c0 [| c1 s']]; cbn.
  - discriminate.
  - destruct (_ && _); discriminate.
  - destruct (Z.leb_spec 48 (Z.of_N (N_of_ascii c0)));
      destruct (Z.leb_spec (Z.of_N (N_of_ascii c0)) 57);
      destruct (Z.leb_spec 48 (Z.of_N (N_of_ascii c1)));
      destruct (Z.leb_spec (Z.of_N (N_of_ascii c1)) 57);
      cbn; try discriminate.
    intros E. injection E as <- <-. exists c0, c1. auto.
Qed.

Lemma skip_dash_inv v rest :
  time.skip v "-" = Some rest -> v = String "-" rest.
Proof.
  destruct v as [| c v]; cbn; [discriminate |].
  destruct (Ascii.eqb_spec c "-"); [| discriminate].
  cbn. intros E. injection E as <-. subst c. reflexivity.
Qed.

Lemma digit_dec c : {digit c} + {~ digit c}.
Proof.
  unfold digit.
  destruct (Z_le_dec 48 (code c)); [| right; lia].
  destruct (Z_le_dec (code c) 57); [left | right]; lia.
Qed.

Lemma leadingInt_digit c rest x :
  digit c -> 0 <= x <= 999 ->
  time.leadingInt (String c rest) x = time.leadingInt rest (x * 10 + code c - 48).
Proof.
  unfold digit, code. intros Hc Hx. cbn [time.leadingInt].
  change (2 ^ 63 / 10) with 922337203685477580.
  change (2 ^ 63) with 9223372036854775808.
  destruct (Z.ltb_spec (Z.of_N (N_of_ascii c)) 48); [lia |].
  destruct (Z.ltb_spec 57 (Z.of_N (N_of_ascii c))); [lia |].
  cbn [orb].
  destruct (Z.ltb_spec 922337203685477580 x); [lia |].
  destruct (Z.ltb_spec 9223372036854775808 (x * 10 + Z.of_N (N_of_ascii c) - 48));
    [lia | reflexivity].
Qed.

Lemma leadingInt_other c rest x :
  ~ digit c ->
  time.leadingInt (String c rest) x = Some (x, String c rest).
Proof.
  unfold digit, code. intros Hc. cbn [time.leadingInt].
  destruct (Z.ltb_spec (Z.of_N (N_of_ascii c)) 48); [reflexivity |].
  destruct (Z.ltb_spec 57 (Z.of_N (N_of_ascii c))); [reflexivity | lia].
Qed.

Lemma year_inv s year :
  (String.length s <? 4)%nat = false ->
  time.isDigit s 0 = true ->
  time.atoi (substring 0 4 s) = Some year ->
  exists c0 c1 c2 c3 rest,
    s = String c0 (String c1 (String c2 (String c3 rest))) /\
    digit c0 /\ digit c1 /\ digit c2 /\ digit c3 /\
    year = (code c0 - 48) * 1000 + (code c1 - 48) * 100
           + (code c2 - 48) * 10 + (code c3 - 48).
Proof.
  destruct s as [| c0 [| c1 [| c2 [| c3 rest]]]]; try (cbn; discriminate).
  intros _ Hd Ha.
  assert (H0 : digit c0).
  { unfold time.isDigit, time.byteAt in Hd. cbn in Hd. fold (code c0) in Hd.
    apply andb_prop in Hd as [Hd%Z.leb_le Hd'%Z.leb_le]. unfold digit. lia. }
  cbn [substring] in Ha.
  replace (substring 0 0 rest) with EmptyString in Ha
    by (destruct rest; reflexivity).
  unfold time.atoi, time.byteAt in Ha.
  cbn [String.length String.get Nat.ltb Nat.leb andb] in Ha.
  fold (code c0) in Ha.
  destruct (Z.eqb_spec (code c0) 45) as [E | _]; [unfold digit in H0; lia |].
  destruct (Z.eqb_spec (code c0) 43) as [E | _]; [unfold digit in H0; lia |].
  cbn [orb andb] in Ha.
  rewrite leadingInt_digit in Ha by (auto; lia).
  destruct (digit_dec c1) as [H1 | H1];
    [| rewrite leadingInt_other in Ha by exact H1; discriminate].
  rewrite leadingInt_digit in Ha by (unfold digit in *; auto; lia).
  destruct (digit_dec c2) as [H2 | H2];
    [| rewrite leadingInt_other in Ha by exact H2; discriminate].
  rewrite leadingInt_digit in Ha by (unfold digit in *; auto; lia).
  destruct (digit_dec c3) as [H3 | H3];
    [| rewrite leadingInt_other in Ha by exact H3; discriminate].
  rewrite leadingInt_digit in Ha by (unfold digit in *; auto; lia).
  cbn [time.leadingInt] in Ha.
  rewrite wrap64_small in Ha
    by (unfold digit, minInt64, maxInt64 in *;
        change (2 ^ 63) with 9223372036854775808; lia).
  injection Ha as <-.
  exists c0, c1, c2, c3, rest. repeat (split; [auto |]). lia.
Qed.

(** A value that parses has the ten bytes of a date, and the instant
    is [Date] of its three numbers. *)
Lemma Parse_DateOnly_inv s t :
  time.Parse_DateOnly s = inr t ->
  exists c0 c1 c2 c3 c5 c6 c8 c9,
    s = String c0 (String c1 (String c2 (String c3 (String "-"
          (String c5 (String c6 (String "-"
             (String c8 (String c9 EmptyString))))))))) /\
    (digit c0 /\ digit c1 /\ digit c2 /\ digit c3) /\
    (digit c5 /\ digit c6) /\ (digit c8 /\ digit c9) /\
    let year := (code c0 - 48) * 1000 + (code c1 - 48) * 100
                + (code c2 - 48) * 10 + (code c3 - 48) in
    let month := (code c5 - 48) * 10 + (code c6 - 48) in
    let day := (code c8 - 48) * 10 + (code c9 - 48) in
    1 <= month <= 12 /\ 1 <= day <= time.daysIn month year /\
    t = time.Date year month day.
Proof.
  unfold time.Parse_DateOnly.
  destruct ((String.length s <? 4)%nat) eqn:Hl; cbn [orb]; [discriminate |].
  destruct (time.isDigit s 0) eqn:Hd; cbn [negb]; [| discriminate].
  destruct (time.atoi (substring 0 4 s)) as [year |] eqn:Ha; [| discriminate].
  destruct (year_inv s year Hl Hd Ha)
    as (c0 & c1 & c2 & c3 & rest & -> & H0 & H1 & H2 & H3 & Hy).
  cbn [time.from].
  destruct (time.skip rest "-") as [v |] eqn:Hs; [| discriminate].
  apply skip_dash_inv in Hs as ->.
  destruct (time.getnum v true) as [[month v2] |] eqn:Hg; [| discriminate].
  destruct (getnum_fixed_inv _ _ _ Hg) as (c5 & c6 & -> & H5 & H6 & Hm).
  destruct (Z.leb_spec month 0) as [| Hm1]; cbn [orb]; [discriminate |].
  destruct (Z.ltb_spec 12 month) as [| Hm2]; [discriminate |].
  destruct (time.skip v2 "-") as [v3 |] eqn:Hs; [| discriminate].
  apply skip_dash_inv in Hs as ->.
  destruct (time.getnum v3 true) as [[day v4] |] eqn:Hg2; [| discriminate].
  destruct (getnum_fixed_inv _ _ _ Hg2) as (c8 & c9 & -> & H8 & H9 & Hdy).
  destruct v4 as [| c10 v4]; cbn [String.length Nat.eqb negb]; [| discriminate].
  destruct (Z.ltb_spec day 1) as [| Hd1]; cbn [orb]; [discriminate |].
  destruct (Z.ltb_spec (time.daysIn month year) day) as [| Hd2]; [discriminate |].
  intros E. injection E as <-. subst year month day.
  exists c0, c1, c2, c3, c5, c6, c8, c9.
  cbv zeta. unfold digit, code in *. repeat split; auto; lia.
Qed.

Lemma daysBefore_facts month :
  1 <= month <= 12 ->
  0 <= time.daysBefore (month - 1) /\
  1 <= time.daysBefore month - time.daysBefore (month - 1) /\
  time.daysBefore month <= 365 /\
  (time.daysBefore (month - 1) = 0 -> month = 1) /\
  (month = 2 -> time.daysBefore (month - 1) = 31).
Proof.
  intros H.
  assert (Hmonth : month = 1 \/ month = 2 \/ month = 3 \/ month = 4 \/
                   month = 5 \/ month = 6 \/ month = 7 \/ month = 8 \/
                   month = 9 \/ month = 10 \/ month = 11 \/ month = 12) by lia.
  repeat (destruct Hmonth as [-> | Hmonth]); try subst month;
    vm_compute; repeat split; intros; congruence.
Qed.

(** Only January 1 of year 1 is zero seconds after the epoch of
    [time.Time]. *)
Lemma Date_ext_zero year month day :
  0 <= year <= 9999 -> 1 <= month <= 12 ->
  1 <= day <= time.daysIn month year ->
  time.ext (time.Date year month day) = 0 ->
  year = 1 /\ month = 1 /\ day = 1.
Proof.
  intros Hy Hm Hd. unfold time.Date, time.daysSinceYear1. cbn [time.ext].
  intros E. apply Z.mul_eq_0_l in E; [| lia].
  destruct (daysBefore_facts month Hm) as (B0 & B1 & B2 & B3 & B4).
  assert (Hs : year = 0 /\ (year - 1) / 4 = -1 /\ (year - 1) / 100 = -1
               /\ (year - 1) / 400 = -1
               \/ 1 <= year /\ 0 <= (year - 1) / 4 - (year - 1) / 100
                  /\ 0 <= (year - 1) / 400).
  { destruct (Z.eq_dec year 0) as [-> | Hne]; [left; repeat split; reflexivity |].
    right. split; [lia |].
    pose proof (Z.div_pos (year - 1) 400).
    assert ((year - 1) / 100 <= (year - 1) / 4)
      by (apply Z.div_le_compat_l; lia).
    lia. }
  unfold time.daysIn in Hd.
  destruct (Z.eqb_spec month 2); destruct (Z.leb_spec 3 month);
    destruct (time.isLeap year); cbn [andb] in Hd, E; lia.
Qed.

Lemma Parse_DateOnly_shape s t :
  time.Parse_DateOnly s = inr t -> is_date_shape s = true.
Proof.
  intros H.
  destruct (Parse_DateOnly_inv s t H)
    as (c0 & c1 & c2 & c3 & c5 & c6 & c8 & c9 & -> &
        (H0 & H1 & H2 & H3) & (H5 & H6) & (H8 & H9) & _).
  assert (D : forall c, digit c -> is_digit c = true).
  { unfold digit, is_digit, code. intros c Hc.
    apply andb_true_intro. split; apply Z.leb_le; lia. }
  cbn [is_date_shape]. rewrite !D by assumption. reflexivity.
Qed.

(** The instant of a date that parses is the zero instant for one
    value only. *)
Lemma Parse_DateOnly_IsZero s t :
  time.Parse_DateOnly s = inr t ->
  time.IsZero t = String.eqb s "0001-01-01".
Proof.
  intros H.
  destruct (Parse_DateOnly_inv s t H)
    as (c0 & c1 & c2 & c3 & c5 & c6 & c8 & c9 & Hs &
        (H0 & H1 & H2 & H3) & (H5 & H6) & (H8 & H9) & Hm & Hd & Ht).
  cbv zeta in Hm, Hd, Ht.
  destruct (String.eqb_spec s "0001-01-01") as [E | N].
  - subst s. rewrite E in H. vm_compute in H. injection H as <-. reflexivity.
  - unfold time.IsZero, time.sec, time.nsec.
    destruct (Z.eqb_spec (time.ext t) 0) as [Z0 | ]; [| reflexivity].
    exfalso. apply N. rewrite Ht in Z0.
    apply Date_ext_zero in Z0; [| unfold digit in *; lia | exact Hm | exact Hd].
    destruct Z0 as (Ey & Em & Ed). unfold digit in *.
    assert (code c0 = Z.of_N 48 /\ code c1 = Z.of_N 48 /\ code c2 = Z.of_N 48
            /\ code c3 = Z.of_N 49 /\ code c5 = Z.of_N 48
            /\ code c6 = Z.of_N 49 /\ code c8 = Z.of_N 48
            /\ code c9 = Z.of_N 49)
      as (E0 & E1 & E2 & E3 & E5 & E6 & E8 & E9)
      by (change (Z.of_N 48) with 48; change (Z.of_N 49) with 49; lia).
    apply code_inj in E0, E1, E2, E3, E5, E6, E8, E9.
    rewrite Hs. subst. reflexivity.
Qed.

End DateOnly.

(** ** The published-date decoder *)

Section Decoder.

Variable json_Unmarshal : list Byte.byte -> error + any.
Variable int64_unrepresentable : spec_float -> Z.

Lemma wrap64_range z : minInt64 <= wrap64 z <= maxInt64.
Proof.
  unfold wrap64, minInt64, maxInt64.
  change (2 ^ 63) with 9223372036854775808.
  change (2 ^ 64) with 18446744073709551616.
  pose proof (Z.mod_pos_bound (z + 9223372036854775808) 18446744073709551616).
  lia.
Qed.

Lemma int64_of_float64_range value :
  minInt64 <= int64_of_float64 int64_unrepresentable value <= maxInt64.
Proof.
  unfold int64_of_float64.
  destruct value as [s | s | | s m e]; try apply wrap64_range.
  - unfold minInt64, maxInt64. change (2 ^ 63) with 9223372036854775808. lia.
  - cbv zeta.
    destruct (in_int64 _) eqn:E; [| apply wrap64_range].
    unfold in_int64 in E. apply andb_prop in E as [E1%Z.leb_le E2%Z.leb_le].
    auto.
Qed.

Lemma int64_of_float64_integer n :
  minInt64 <= n <= maxInt64 ->
  int64_of_float64 int64_unrepresentable (float64_integer n) = n.
Proof.
  intros H. unfold int64_of_float64, float64_integer.
  destruct n as [| m | m]; [reflexivity | |]; cbv zeta;
    rewrite Z.shiftl_0_r.
  - replace (in_int64 (Z.pos m)) with true; [reflexivity |].
    symmetry. unfold in_int64. apply andb_true_intro.
    split; apply Z.leb_le; lia.
  - change (- Z.pos m) with (Z.neg m).
    replace (in_int64 (Z.neg m)) with true; [reflexivity |].
    symmetry. unfold in_int64. apply andb_true_intro.
    split; apply Z.leb_le; lia.
Qed.

(** C7, as amended. The decoder turns every JSON number into the
    instant [UnixMilli] of its integer part, in particular an integer
    count [n] of milliseconds into [UnixMilli n]; a text that
    [time.Parse] accepts under the layout 2006-01-02 into the instant
    it parsed to; and null into [time.Time{}]. None of these fails.
    The instant is non-zero except for the number -62135596800000 and
    the text 0001-01-01, which both denote January 1 of year 1. *)
Theorem UnmarshalJSON_published_date tv data :
  (forall value,
     json_Unmarshal data = inr (float64_any value) ->
     UnmarshalJSON json_Unmarshal int64_unrepresentable tv data
     = (time.UnixMilli (int64_of_float64 int64_unrepresentable value), None) /\
     time.IsZero (time.UnixMilli (int64_of_float64 int64_unrepresentable value))
     = (int64_of_float64 int64_unrepresentable value =? -62135596800000) /\
     (forall n, minInt64 <= n <= maxInt64 -> value = float64_integer n ->
                int64_of_float64 int64_unrepresentable value = n)) /\
  (forall value t,
     json_Unmarshal data = inr (string_any value) ->
     time.Parse_DateOnly value = inr t ->
     UnmarshalJSON json_Unmarshal int64_unrepresentable tv data = (t, None) /\
     time.IsZero t = String.eqb value "0001-01-01") /\
  (json_Unmarshal data = inr nil_any ->
   UnmarshalJSON json_Unmarshal int64_unrepresentable tv data
   = (time.zero, None) /\
   time.IsZero time.zero = true).
Proof.
  unfold UnmarshalJSON. split; [| split].
  - intros value Hv. rewrite Hv. split; [reflexivity | split].
    + apply UnixMilli_IsZero, int64_of_float64_range.
    + intros n Hn ->. apply int64_of_float64_integer, Hn.
  - intros value t Hv Hp. rewrite Hv, Hp. split; [reflexivity |].
    apply Parse_DateOnly_IsZero, Hp.
  - intros Hv. rewrite Hv. split; reflexivity.
Qed.

(** C8. A decoded value that is neither a number, a text nor null is
    refused with the invalid-time-value-type error naming its type,
    and a text that [time.Parse] refuses under the layout 2006-01-02
    is refused with that parse error; every text that is not of the
    shape YYYY-MM-DD is among these. In both cases [*tv] keeps the
    value it had. *)
Theorem UnmarshalJSON_rejects tv data :
  (forall v,
     json_Unmarshal data = inr v ->
     is_time_value v = false ->
     UnmarshalJSON json_Unmarshal int64_unrepresentable tv data
     = (tv, Some (Errorf_T "invalid time value type: %T" (typeName v)))) /\
  (forall value err,
     json_Unmarshal data = inr (string_any value) ->
     time.Parse_DateOnly value = inl err ->
     UnmarshalJSON json_Unmarshal int64_unrepresentable tv data
     = (tv, Some (ParseError err))) /\
  (forall value,
     is_date_shape value = false ->
     exists err, time.Parse_DateOnly value = inl err).
Proof.
  unfold UnmarshalJSON. split; [| split].
  - intros v Hv Ht. rewrite Hv.
    destruct v; try discriminate Ht; reflexivity.
  - intros value err Hv Hp. rewrite Hv, Hp. reflexivity.
  - intros value Hs.
    destruct (time.Parse_DateOnly value) as [err | t] eqn:E; [eauto |].
    apply Parse_DateOnly_shape in E. congruence.
Qed.

End Decoder.

(** ** The statements at sample worlds *)

Lemma sample_200_serves b lr :
  sample_Decode [b] = inr lr -> serves sample_Decode (sample_200 b) lr.
Proof. intros H. eexists _, [b]. cbn. auto. Qed.

Lemma sample_429_throttles raw : throttles (sample_429 raw) raw.
Proof. eexists _, []. cbn. auto. Qed.

Lemma sample_429_rate_limits raw n :
  strconv.Atoi raw = inr n -> rate_limits (sample_429 raw) n.
Proof. intros H. exists raw. split; [apply sample_429_throttles | exact H]. Qed.

Lemma ListPaginate_yields_chain_witness :
  exists w',
    run sample_Decode sample_params two_pages ≈ Ret (w', tt) /\
    trace w'
    = [Requested (set_PageCursor sample_params EmptyString);
       Yielded (Page_ (toListResponse sample_page1)) None;
       Requested (set_PageCursor sample_params "cursor-2");
       Yielded (Page_ (toListResponse sample_page2)) None] /\
    exchanges w' = [sample_429 "1"] /\
    waits w' = [] /\
    demand w' = [].
Proof.
  apply (ListPaginate_yields_chain sample_Decode sample_params two_pages
           [sample_200 Byte.x01; sample_200 Byte.x02] [sample_429 "1"]
           [sample_page1; sample_page2] true []).
  - reflexivity.
  - repeat constructor; apply sample_200_serves; reflexivity.
  - reflexivity.
  - reflexivity.
Defined.

Lemma ListPaginate_retries_same_cursor_witness :
  exists w',
    resume sample_Decode sample_params "cursor-9" limited_twice
    ≈ proceed sample_Decode sample_params (toListResponse sample_page2) true w' /\
    trace w'
    = [Requested (set_PageCursor sample_params "cursor-9");
       Waited 2000000000 time_After;
       Requested (set_PageCursor sample_params "cursor-9");
       Waited 0 time_After;
       Requested (set_PageCursor sample_params "cursor-9");
       Yielded (Page_ (toListResponse sample_page2)) None] /\
    exchanges w' = [sample_200 Byte.x01] /\
    waits w' = [TimerFired] /\
    demand w' = [].
Proof.
  apply (ListPaginate_retries_same_cursor sample_Decode sample_params "cursor-9"
           [sample_429 "2"; sample_429 "0"] [2; 0] limited_twice
           (sample_200 Byte.x02) sample_page2 [sample_200 Byte.x01]
           [TimerFired] true []).
  - reflexivity.
  - repeat constructor; apply sample_429_rate_limits; reflexivity.
  - reflexivity.
  - repeat constructor.
  - reflexivity.
  - apply sample_200_serves; reflexivity.
  - reflexivity.
Defined.

Lemma ListPaginate_cancelled_while_waiting_witness :
  exists w',
    resume sample_Decode sample_params "cursor-9" cancelled_waiting ≈ Ret (w', tt) /\
    trace w'
    = [Requested (set_PageCursor sample_params "cursor-9");
       Waited 30000000000 ctx_Done;
       Yielded Page_zero (Some Canceled)] /\
    exchanges w' = [sample_200 Byte.x01] /\
    waits w' = [] /\
    demand w' = [].
Proof.
  apply (ListPaginate_cancelled_while_waiting sample_Decode sample_params
           "cursor-9" cancelled_waiting (sample_429 "30") [sample_200 Byte.x01]
           30 Canceled [] true []).
  - reflexivity.
  - apply sample_429_rate_limits; reflexivity.
  - reflexivity.
  - reflexivity.
  - reflexivity.
Defined.

Lemma ListPaginate_cancelled_before_wait_witness :
  exists w',
    resume sample_Decode sample_params "cursor-9" cancelled_early ≈ Ret (w', tt) /\
    trace w'
    = [Requested (set_PageCursor sample_params "cursor-9");
       Yielded Page_zero (Some DeadlineExceeded)] /\
    exchanges w' = [sample_200 Byte.x01] /\
    waits w' = [TimerFired] /\
    demand w' = [].
Proof.
  apply (ListPaginate_cancelled_before_wait sample_Decode sample_params
           "cursor-9" cancelled_early
           (mkExchange (reply (sample_429 "30")) (Some DeadlineExceeded))
           [sample_200 Byte.x01] 30 DeadlineExceeded true []).
  - reflexivity.
  - exists "30". split; [eexists _, []; cbn; auto | reflexivity].
  - reflexivity.
  - reflexivity.
Defined.

Lemma ListPaginate_stops_when_consumer_stops_witness :
  exists w',
    resume sample_Decode sample_params EmptyString stops_early ≈ Ret (w', tt) /\
    trace w'
    = [Requested (set_PageCursor sample_params EmptyString);
       Yielded (Page_ (toListResponse sample_page1)) None] /\
    exchanges w' = [sample_200 Byte.x02] /\
    waits w' = [] /\
    demand w' = [true].
Proof.
  apply (ListPaginate_stops_when_consumer_stops sample_Decode sample_params
           EmptyString stops_early (sample_200 Byte.x01) [sample_200 Byte.x02]
           sample_page1 [true]).
  - reflexivity.
  - apply sample_200_serves; reflexivity.
  - reflexivity.
Defined.

Lemma List_429_retry_after_witness :
  (let e := Errorf_v_w "invalid retry-after header: %v: %w" "abc"
              (NumError (strconv.mkNumError "Atoi" "abc" strconv.ErrSyntax)) in
   fetch sample_Decode (set_PageCursor sample_params "cursor-9") malformed_header
   ≈ Ret (exchanged (set_PageCursor sample_params "cursor-9") (sample_429 "abc")
            [sample_200 Byte.x01] malformed_header, inl e) /\
   errors_As e = None /\
   exists w',
     resume sample_Decode sample_params "cursor-9" malformed_header ≈ Ret (w', tt) /\
     trace w'
     = [Requested (set_PageCursor sample_params "cursor-9");
        Yielded Page_zero (Some e)] /\
     exchanges w' = [sample_200 Byte.x01] /\
     waits w' = [TimerFired] /\
     demand w' = []) /\
  fetch sample_Decode (set_PageCursor sample_params "cursor-9") negative_header
  ≈ Ret (exchanged (set_PageCursor sample_params "cursor-9") (sample_429 "-3")
           [sample_200 Byte.x02] negative_header,
         inl (RateLimited {| RetryAfter := -3 * time.Second |})).
Proof.
  split.
  - destruct (List_429_retry_after sample_Decode sample_params "cursor-9"
                malformed_header (sample_429 "abc") [sample_200 Byte.x01] "abc"
                eq_refl (sample_429_throttles "abc")) as [Hbad _].
    destruct (Hbad (strconv.mkNumError "Atoi" "abc" strconv.ErrSyntax) eq_refl)
      as (Hf & Has & Hrun).
    cbv zeta. split; [exact Hf | split; [exact Has |]].
    exact (Hrun true [] eq_refl).
  - destruct (List_429_retry_after sample_Decode sample_params "cursor-9"
                negative_header (sample_429 "-3") [sample_200 Byte.x02] "-3"
                eq_refl (sample_429_throttles "-3")) as [_ Hok].
    apply (Hok (-3)); [reflexivity | lia].
Defined.

(** C5 as stated fails where the seconds do not fit a [Duration]: the
    header [9223372037] parses, and the signal carries a negative
    duration instead of 9223372037 seconds. *)
Lemma List_429_retry_after_counterexample :
  throttles (sample_429 "9223372037") "9223372037" /\
  strconv.Atoi "9223372037" = inr 9223372037 /\
  fetch sample_Decode sample_params huge_retry_after
  ≈ Ret (exchanged sample_params (sample_429 "9223372037") [] huge_retry_after,
         inl (RateLimited {| RetryAfter := -9223372036709551616 |})) /\
  ~ (fetch sample_Decode sample_params huge_retry_after
     ≈ Ret (exchanged sample_params (sample_429 "9223372037") [] huge_retry_after,
            inl (RateLimited {| RetryAfter := 9223372037 * time.Second |}))).
Proof.
  assert (Hf : fetch sample_Decode sample_params huge_retry_after
               ≈ Ret (exchanged sample_params (sample_429 "9223372037") []
                        huge_retry_after,
                      inl (RateLimited {| RetryAfter := -9223372036709551616 |})))
    by (apply (rate_limits_fetch sample_Decode sample_params huge_retry_after
                 (sample_429 "9223372037") [] 9223372037 eq_refl);
        apply sample_429_rate_limits; reflexivity).
  split; [apply sample_429_throttles | split; [reflexivity | split; [exact Hf |]]].
  intros H. pose proof (returns_once _ _ _ Hf H) as E.
  injection E as E. vm_compute in E. discriminate E.
Qed.

Lemma List_429_any_integer_witness :
  exists rle,
    fetch sample_Decode (set_PageCursor sample_params "cursor-9") negative_header
    ≈ Ret (exchanged (set_PageCursor sample_params "cursor-9") (sample_429 "-3")
             [sample_200 Byte.x02] negative_header,
           inl (RateLimited rle)) /\
    errors_As (RateLimited rle) = Some rle /\
    (-9223372036 <= -3 <= 9223372036 -> RetryAfter rle = -3 * time.Second) /\
    (-9223372036 <= -3 <= 0 ->
       RetryAfter rle <= 0 /\
       forall ws,
         cancel (cancelled negative_header) (interrupt (sample_429 "-3")) = None ->
         waits negative_header = TimerFired :: ws ->
         resume sample_Decode sample_params "cursor-9" negative_header
         ≈ resume sample_Decode sample_params "cursor-9"
             (waited (RetryAfter rle) TimerFired ws
                (exchanged (set_PageCursor sample_params "cursor-9")
                   (sample_429 "-3") [sample_200 Byte.x02] negative_header))).
Proof.
  apply (List_429_any_integer sample_Decode sample_params "cursor-9"
           negative_header (sample_429 "-3") [sample_200 Byte.x02] "-3" (-3)).
  - reflexivity.
  - apply sample_429_throttles.
  - reflexivity.
Defined.

(** C9 as stated fails for a negative header below what a [Duration]
    holds in seconds: [-9223372037] parses, is not positive, and the
    iterator arms a timer of about 292 years before it retries. *)
Lemma List_429_any_integer_counterexample :
  strconv.Atoi "-9223372037" = inr (-9223372037) /\
  -9223372037 <= 0 /\
  (exists w',
     run sample_Decode sample_params far_negative_header ≈ Ret (w', tt) /\
     trace w'
     = [Requested (set_PageCursor sample_params EmptyString);
        Waited 9223372036709551616 time_After;
        Requested (set_PageCursor sample_params EmptyString);
        Yielded (Page_ (toListResponse sample_page2)) None]) /\
  0 < 9223372036709551616 /\
  9223372036709551616 <> -9223372037 * time.Second.
Proof.
  split; [reflexivity | split; [lia | split; [| split]]].
  - eexists. split.
    + apply (burn_sound 40). vm_compute. reflexivity.
    + reflexivity.
  - lia.
  - vm_compute. discriminate.
Qed.

(** ** The decoder at sample values *)

Lemma UnmarshalJSON_published_date_witness :
  (UnmarshalJSON sample_json_Unmarshal sample_unrepresentable
     (time.Date 2020 1 1) (json_text "1700000000123")
   = (time.UnixMilli 1700000000123, None) /\
   time.IsZero (time.UnixMilli 1700000000123) = false) /\
  (UnmarshalJSON sample_json_Unmarshal sample_unrepresentable
     (time.Date 2020 1 1) (json_string "2024-02-29")
   = (time.Date 2024 2 29, None) /\
   time.IsZero (time.Date 2024 2 29) = false) /\
  (UnmarshalJSON sample_json_Unmarshal sample_unrepresentable
     (time.Date 2020 1 1) (json_text "null")
   = (time.zero, None) /\
   time.IsZero time.zero = true).
Proof.
  split; [| split].
  - destruct (UnmarshalJSON_published_date sample_json_Unmarshal
                sample_unrepresentable (time.Date 2020 1 1)
                (json_text "1700000000123")) as (H & _ & _).
    destruct (H (float64_integer 1700000000123) eq_refl) as (H1 & H2 & _).
    split; [exact H1 | exact H2].
  - destruct (UnmarshalJSON_published_date sample_json_Unmarshal
                sample_unrepresentable (time.Date 2020 1 1)
                (json_string "2024-02-29")) as (_ & H & _).
    exact (H "2024-02-29" (time.Date 2024 2 29) eq_refl eq_refl).
  - destruct (UnmarshalJSON_published_date sample_json_Unmarshal
                sample_unrepresentable (time.Date 2020 1 1)
                (json_text "null")) as (_ & _ & H).
    exact (H eq_refl).
Defined.

(** C7 as stated fails at the first day of year 1: the date string
    0001-01-01 and the millisecond count -62135596800000 are both
    decoded, without error, to an instant for which [IsZero] holds; and a
    string of the shape YYYY-MM-DD need not be a date at all. *)
Lemma UnmarshalJSON_published_date_counterexample :
  (UnmarshalJSON sample_json_Unmarshal sample_unrepresentable
     (time.Date 2020 1 1) (json_string "0001-01-01")
   = (time.zero, None) /\
   time.IsZero time.zero = true) /\
  (UnmarshalJSON sample_json_Unmarshal sample_unrepresentable
     (time.Date 2020 1 1) (json_text "-62135596800000")
   = (time.UnixMilli (-62135596800000), None) /\
   time.IsZero (time.UnixMilli (-62135596800000)) = true) /\
  (is_date_shape "2023-02-30" = true /\
   UnmarshalJSON sample_json_Unmarshal sample_unrepresentable
     (time.Date 2020 1 1) (json_string "2023-02-30")
   = (time.Date 2020 1 1,
      Some (ParseError (time.mkParseError time.DateOnly "2023-02-30"
                          time.dayOutOfRange)))).
Proof.
  repeat split; vm_compute; reflexivity.
Qed.

Lemma UnmarshalJSON_rejects_witness :
  UnmarshalJSON sample_json_Unmarshal sample_unrepresentable
    (time.Date 2020 1 1) (json_text "true")
  = (time.Date 2020 1 1, Some (Errorf_T "invalid time value type: %T" "bool")) /\
  UnmarshalJSON sample_json_Unmarshal sample_unrepresentable
    (time.Date 2020 1 1) (json_text "{}")
  = (time.Date 2020 1 1,
     Some (Errorf_T "invalid time value type: %T" "map[string]interface {}")) /\
  UnmarshalJSON sample_json_Unmarshal sample_unrepresentable
    (time.Date 2020 1 1) (json_string "1 March 2024")
  = (time.Date 2020 1 1,
     Some (ParseError (time.mkParseError time.DateOnly "1 March 2024"
                         time.badFormat))) /\
  (exists err, time.Parse_DateOnly "2024-3-01" = inl err).
Proof.
  split; [| split; [| split]].
  - destruct (UnmarshalJSON_rejects sample_json_Unmarshal sample_unrepresentable
                (time.Date 2020 1 1) (json_text "true")) as (H & _ & _).
    exact (H (bool_any true) eq_refl eq_refl).
  - destruct (UnmarshalJSON_rejects sample_json_Unmarshal sample_unrepresentable
                (time.Date 2020 1 1) (json_text "{}")) as (H & _ & _).
    exact (H (map_any []) eq_refl eq_refl).
  - destruct (UnmarshalJSON_rejects sample_json_Unmarshal sample_unrepresentable
                (time.Date 2020 1 1) (json_string "1 March 2024")) as (_ & H & _).
    exact (H "1 March 2024" _ eq_refl eq_refl).
  - destruct (UnmarshalJSON_rejects sample_json_Unmarshal sample_unrepresentable
                (time.Date 2020 1 1) (json_text "null")) as (_ & _ & H).
    exact (H "2024-3-01" eq_refl).
Defined.

(** * More of the single-page fetcher *)

(** A silent environment never lets a program past the event it waits
    on. *)
Lemma bind_spin {E : Type -> Type} {A B : Type} (k : A -> itree E B) :
  ITree.bind (@ITree.spin E A) k ≈ ITree.spin.
Proof.
  pcofix CIH. pfold. red. cbn. constructor. right. apply CIH.
Qed.

Section Fetch.

Variable Decode : list Byte.byte -> error + listResponse.

Lemma List_silent params w :
  exchanges w = [] -> fetch Decode params w ≈ ITree.spin.
Proof.
  intros Hx. unfold fetch, List, list_.
  rewrite bind_bind, interp_state_bind, interp_state_trigger. cbn.
  rewrite Hx. apply bind_spin.
Qed.

Lemma List_do_error params w x xs err :
  exchanges w = x :: xs ->
  reply x = inl err ->
  fetch Decode params w
  ≈ Ret (exchanged params x xs w, inl (Errorf_w "do: %w" err)).
Proof.
  intros Hx Hr. unfold fetch, List, list_.
  rewrite bind_bind, interp_state_bind, (run_Do _ _ _ _ Hx), bind_ret_l.
  cbn. rewrite Hr, bind_ret_l. cbn. rewrite interp_state_ret. reflexivity.
Qed.

Lemma List_readall_error params w x xs resp err :
  exchanges w = x :: xs ->
  reply x = inr resp ->
  Body resp = inl err ->
  fetch Decode params w
  ≈ Ret (exchanged params x xs w, inl (Errorf_w "readall: %w" err)).
Proof.
  intros Hx Hr Hb. unfold fetch, List, list_.
  rewrite bind_bind, interp_state_bind, (run_Do _ _ _ _ Hx), bind_ret_l.
  cbn. rewrite Hr, Hb, bind_ret_l. cbn. rewrite interp_state_ret. reflexivity.
Qed.

Lemma List_unexpected_status params w x xs resp b :
  exchanges w = x :: xs ->
  reply x = inr resp ->
  Body resp = inr b ->
  StatusCode resp <> StatusTooManyRequests ->
  StatusCode resp <> StatusOK ->
  fetch Decode params w
  ≈ Ret (exchanged params x xs w,
         inl (Errorf_d "unexpected status code: %d" (StatusCode resp))).
Proof.
  intros Hx Hr Hb H429 H200. unfold fetch, List, list_.
  rewrite bind_bind, interp_state_bind, (run_Do _ _ _ _ Hx), bind_ret_l.
  cbn. rewrite Hr, Hb, bind_ret_l. cbn.
  apply Z.eqb_neq in H429, H200. rewrite H429, H200. cbn.
  rewrite interp_state_ret. reflexivity.
Qed.

Lemma List_decode_error params w x xs resp b err :
  exchanges w = x :: xs ->
  reply x = inr resp ->
  Body resp = inr b ->
  StatusCode resp = StatusOK ->
  Decode b = inl err ->
  fetch Decode params w ≈ Ret (exchanged params x xs w, inl err).
Proof.
  intros Hx Hr Hb Hs Hd. unfold fetch, List, list_.
  rewrite bind_bind, interp_state_bind, (run_Do _ _ _ _ Hx), bind_ret_l.
  cbn. rewrite Hr, Hb, bind_ret_l. cbn. rewrite Hs. cbn. rewrite Hd.
  rewrite interp_state_ret. reflexivity.
Qed.

(** What one call of [List] returns, by the exchange it consumed. *)
Lemma fetch_cases params w x xs :
  exchanges w = x :: xs ->
  exists r,
    fetch Decode params w ≈ Ret (exchanged params x xs w, r) /\
    ((exists e, reply x = inl e /\ r = inl (Errorf_w "do: %w" e)) \/
     (exists resp e, reply x = inr resp /\ Body resp = inl e /\
                     r = inl (Errorf_w "readall: %w" e)) \/
     (exists n, rate_limits x n /\
                r = inl (RateLimited {| RetryAfter := time.mul n time.Second |})) \/
     (exists raw e, throttles x raw /\ strconv.Atoi raw = inl e /\
                    r = inl (Errorf_v_w "invalid retry-after header: %v: %w"
                               raw (NumError e))) \/
     (exists resp b, reply x = inr resp /\ Body resp = inr b /\
                     StatusCode resp <> StatusTooManyRequests /\
                     StatusCode resp <> StatusOK /\
                     r = inl (Errorf_d "unexpected status code: %d"
                                (StatusCode resp))) \/
     (exists resp b e, reply x = inr resp /\ Body resp = inr b /\
                       StatusCode resp = StatusOK /\ Decode b = inl e /\
                       r = inl e) \/
     (exists lr, serves Decode x lr /\ r = inr (toListResponse lr))).
Proof.
  intros Hx.
  destruct (reply x) as [e | resp] eqn:Hr.
  { eexists. split; [apply (List_do_error params w x xs e Hx Hr) |].
    left. eauto. }
  destruct (Body resp) as [e | b] eqn:Hb.
  { eexists. split; [apply (List_readall_error params w x xs resp e Hx Hr Hb) |].
    right; left. eauto. }
  destruct (Z.eq_dec (StatusCode resp) StatusTooManyRequests) as [H429 | H429].
  { destruct (strconv.Atoi (Header_Get (Header_ resp) "Retry-After"))
      as [e | n] eqn:Ha.
    - eexists. split;
        [apply (List_retry_after_invalid Decode params w x xs resp b e
                  Hx Hr Hb H429 Ha) |].
      do 3 right; left. eexists _, e. split; [| split; [exact Ha | reflexivity]].
      exists resp, b. auto.
    - eexists. split;
        [apply (List_rate_limited Decode params w x xs resp b n Hx Hr Hb H429 Ha) |].
      do 2 right; left. exists n. split; [| reflexivity].
      eexists. split; [exists resp, b; eauto | exact Ha]. }
  destruct (Z.eq_dec (StatusCode resp) StatusOK) as [H200 | H200].
  { destruct (Decode b) as [e | lr] eqn:Hd.
    - eexists. split;
        [apply (List_decode_error params w x xs resp b e Hx Hr Hb H200 Hd) |].
      do 5 right; left. exists resp, b, e. auto.
    - eexists. split;
        [apply (List_ok Decode params w x xs resp b lr Hx Hr Hb H200 Hd) |].
      do 6 right. exists lr. split; [exists resp, b; auto | reflexivity]. }
  eexists. split;
    [apply (List_unexpected_status params w x xs resp b Hx Hr Hb H429 H200) |].
  do 4 right; left. exists resp, b. auto.
Qed.

(** X1. Whatever the server answers, one call of [List] sends exactly
    one request, with the parameters it was given, takes exactly that
    one answer and returns: it touches neither the timer script nor the
    consumer, so it never retries. While the server stays silent it
    never returns. *)
Theorem List_one_exchange params w :
  (forall x xs, exchanges w = x :: xs ->
     exists r w',
       fetch Decode params w ≈ Ret (w', r) /\
       exchanges w' = xs /\
       trace w' = trace w ++ [Requested params] /\
       waits w' = waits w /\
       demand w' = demand w) /\
  (exchanges w = [] -> fetch Decode params w ≈ ITree.spin).
Proof.
  split.
  - intros x xs Hx. destruct (fetch_cases params w x xs Hx) as (r & Hf & _).
    exists r, (exchanged params x xs w). split; [exact Hf |].
    unfold exchanged; cbn. auto.
  - apply List_silent.
Qed.

(** A fetch error that is no rate-limit signal ends the iteration: it
    is yielded with the zero page and the loop returns. *)
Lemma error_terminal params cursor w x xs err b bs :
  exchanges w = x :: xs ->
  fetch Decode (set_PageCursor params cursor) w
  ≈ Ret (exchanged (set_PageCursor params cursor) x xs w, inl err) ->
  errors_As err = None ->
  demand w = b :: bs ->
  exists w',
    resume Decode params cursor w ≈ Ret (w', tt) /\
    trace w'
    = trace w ++ [Requested (set_PageCursor params cursor);
                  Yielded Page_zero (Some err)] /\
    exchanges w' = xs /\
    waits w' = waits w /\
    demand w' = bs.
Proof.
  intros Hx Hf Has Hd. eexists. split.
  - apply (pass_error Decode _ _ _ _ _ Hf err b bs eq_refl Has Hd).
  - unfold yielded, exchanged; cbn. rewrite <- !app_assoc. auto.
Qed.

(** X2. Any status other than 200 and 429, the other 2xx included,
    makes [List] fail with the unexpected-status error that carries the
    code; the body is not decoded. The iterator yields that error as
    its last item, without a wait or another request. *)
Theorem List_unexpected_status_ends params cursor w x xs resp body b bs :
  exchanges w = x :: xs ->
  reply x = inr resp ->
  Body resp = inr body ->
  StatusCode resp <> StatusTooManyRequests ->
  StatusCode resp <> StatusOK ->
  demand w = b :: bs ->
  let err := Errorf_d "unexpected status code: %d" (StatusCode resp) in
  fetch Decode (set_PageCursor params cursor) w
  ≈ Ret (exchanged (set_PageCursor params cursor) x xs w, inl err) /\
  exists w',
    resume Decode params cursor w ≈ Ret (w', tt) /\
    trace w'
    = trace w ++ [Requested (set_PageCursor params cursor);
                  Yielded Page_zero (Some err)] /\
    exchanges w' = xs /\
    waits w' = waits w /\
    demand w' = bs.
Proof.
  intros Hx Hr Hb H429 H200 Hd err.
  pose proof (List_unexpected_status (set_PageCursor params cursor) w x xs
                resp body Hx Hr Hb H429 H200) as Hf.
  split; [exact Hf |].
  apply (error_terminal params cursor w x xs err b bs Hx Hf eq_refl Hd).
Qed.

(** X3. When the HTTP round trip itself fails, [List] returns the
    failure wrapped under the do prefix: [Unwrap] gives the transport's
    error back, and the wrapper is a rate-limit signal only if the
    transport's error is one. Otherwise the iterator yields it as its
    last item and neither waits nor asks again. *)
Theorem List_transport_error_ends params cursor w x xs e b bs :
  exchanges w = x :: xs ->
  reply x = inl e ->
  demand w = b :: bs ->
  let err := Errorf_w "do: %w" e in
  fetch Decode (set_PageCursor params cursor) w
  ≈ Ret (exchanged (set_PageCursor params cursor) x xs w, inl err) /\
  Unwrap err = Some e /\
  errors_As err = errors_As e /\
  (errors_As e = None ->
   exists w',
     resume Decode params cursor w ≈ Ret (w', tt) /\
     trace w'
     = trace w ++ [Requested (set_PageCursor params cursor);
                   Yielded Page_zero (Some err)] /\
     exchanges w' = xs /\
     waits w' = waits w /\
     demand w' = bs).
Proof.
  intros Hx Hr Hd err.
  pose proof (List_do_error (set_PageCursor params cursor) w x xs e Hx Hr) as Hf.
  split; [exact Hf | split; [reflexivity | split; [reflexivity |]]].
  intros Has.
  apply (error_terminal params cursor w x xs err b bs Hx Hf Has Hd).
Qed.

(** X4. The body is read before the status is looked at: a response
    whose body cannot be read fails with the read error under the
    readall prefix whatever its status, so even a 429 with a good
    Retry-After header is then no rate-limit signal and is not retried;
    the iterator yields the error as its last item. *)
Theorem List_unreadable_body_ends params cursor w x xs resp e b bs :
  exchanges w = x :: xs ->
  reply x = inr resp ->
  Body resp = inl e ->
  errors_As e = None ->
  demand w = b :: bs ->
  let err := Errorf_w "readall: %w" e in
  fetch Decode (set_PageCursor params cursor) w
  ≈ Ret (exchanged (set_PageCursor params cursor) x xs w, inl err) /\
  errors_As err = None /\
  exists w',
    resume Decode params cursor w ≈ Ret (w', tt) /\
    trace w'
    = trace w ++ [Requested (set_PageCursor params cursor);
                  Yielded Page_zero (Some err)] /\
    exchanges w' = xs /\
    waits w' = waits w /\
    demand w' = bs.
Proof.
  intros Hx Hr Hb Has Hd err.
  pose proof (List_readall_error (set_PageCursor params cursor) w x xs resp e
                Hx Hr Hb) as Hf.
  split; [exact Hf | split; [exact Has |]].
  apply (error_terminal params cursor w x xs err b bs Hx Hf Has Hd).
Qed.

(** X5. When the body of a 200 does not decode, [List] returns the
    decoder's error itself, unwrapped, and the iterator yields it as its
    last item without a wait or another request. *)
Theorem List_decode_error_ends params cursor w x xs resp body e b bs :
  exchanges w = x :: xs ->
  reply x = inr resp ->
  Body resp = inr body ->
  StatusCode resp = StatusOK ->
  Decode body = inl e ->
  errors_As e = None ->
  demand w = b :: bs ->
  fetch Decode (set_PageCursor params cursor) w
  ≈ Ret (exchanged (set_PageCursor params cursor) x xs w, inl e) /\
  exists w',
    resume Decode params cursor w ≈ Ret (w', tt) /\
    trace w'
    = trace w ++ [Requested (set_PageCursor params cursor);
                  Yielded Page_zero (Some e)] /\
    exchanges w' = xs /\
    waits w' = waits w /\
    demand w' = bs.
Proof.
  intros Hx Hr Hb Hs Hdec Has Hd.
  pose proof (List_decode_error (set_PageCursor params cursor) w x xs resp body e
                Hx Hr Hb Hs Hdec) as Hf.
  split; [exact Hf |].
  apply (error_terminal params cursor w x xs e b bs Hx Hf Has Hd).
Qed.

(** X6. [List] returns a page only for a 200 whose body decodes, and
    then it is the conversion of the decoded response; and, the errors
    of the transport, the body reader and the decoder carrying no
    signal of their own, it returns a rate-limit signal only for a 429
    whose Retry-After header is an integer. In every case it has taken
    exactly one exchange. *)
Theorem List_result_inv params w w1 r :
  fetch Decode params w ≈ Ret (w1, r) ->
  exists x xs,
    exchanges w = x :: xs /\
    w1 = exchanged params x xs w /\
    (forall resp, r = inr resp ->
       exists lr, serves Decode x lr /\ resp = toListResponse lr) /\
    (forall err rle, r = inl err -> errors_As err = Some rle ->
       quiet Decode x ->
       exists n, rate_limits x n /\
                 rle = {| RetryAfter := time.mul n time.Second |}).
Proof.
  intros H.
  destruct (exchanges w) as [| x xs] eqn:Hx.
  { rewrite (List_silent params w Hx) in H.
    exfalso. exact (eutt_spin_Ret_abs _ H). }
  exists x, xs. split; [reflexivity |].
  destruct (fetch_cases params w x xs Hx) as (r0 & Hf & Hcases).
  pose proof (returns_once _ _ _ Hf H) as E. injection E as <- <-.
  split; [reflexivity |]. unfold quiet.
  destruct Hcases as
    [(e & Hr & ->) |
     [(resp & e & Hr & Hb & ->) |
      [(n & Hn & ->) |
       [(raw & e & Ht & Ha & ->) |
        [(resp & b & Hr & Hb & H429 & H200 & ->) |
         [(resp & b & e & Hr & Hb & H200 & Hd & ->) |
          (lr & Hs & ->)]]]]]];
    (split; [intros resp' E; try discriminate E | intros err rle E Has Hq]).
  - injection E as <-. rewrite Hr in Hq. cbn in Has. congruence.
  - injection E as <-. rewrite Hr, Hb in Hq. cbn in Has. congruence.
  - injection E as <-. cbn in Has. injection Has as <-. eauto.
  - injection E as <-. discriminate Has.
  - injection E as <-. discriminate Has.
  - injection E as <-. rewrite Hr, Hb, Hd in Hq. congruence.
  - injection E as <-. eauto.
  - discriminate E.
Qed.

Lemma Header_Get_absent h key :
  (forall vs, ~ In (key, vs) h) -> Header_Get h key = EmptyString.
Proof.
  induction h as [| [k vs] h IH]; intros H; cbn; [reflexivity |].
  destruct (String.eqb_spec k key) as [-> | _].
  - exfalso. apply (H vs). left. reflexivity.
  - apply IH. intros vs' Hin. apply (H vs'). right. exact Hin.
Qed.

(** X7. A 429 that carries no Retry-After header at all is not
    retried: the absent header reads as the empty string, which
    [strconv.Atoi] refuses, so [List] fails with the invalid-header
    error for the empty value and the iterator yields it as its last
    item. *)
Theorem List_429_without_header_ends params cursor w x xs resp body b bs :
  exchanges w = x :: xs ->
  reply x = inr resp ->
  Body resp = inr body ->
  StatusCode resp = StatusTooManyRequests ->
  (forall vs, ~ In ("Retry-After", vs) (Header_ resp)) ->
  demand w = b :: bs ->
  let err := Errorf_v_w "invalid retry-after header: %v: %w" EmptyString
               (NumError (strconv.mkNumError "Atoi" EmptyString
                            strconv.ErrSyntax)) in
  fetch Decode (set_PageCursor params cursor) w
  ≈ Ret (exchanged (set_PageCursor params cursor) x xs w, inl err) /\
  exists w',
    resume Decode params cursor w ≈ Ret (w', tt) /\
    trace w'
    = trace w ++ [Requested (set_PageCursor params cursor);
                  Yielded Page_zero (Some err)] /\
    exchanges w' = xs /\
    waits w' = waits w /\
    demand w' = bs.
Proof.
  intros Hx Hr Hb Hs Hh Hd err.
  assert (Hf : fetch Decode (set_PageCursor params cursor) w
               ≈ Ret (exchanged (set_PageCursor params cursor) x xs w, inl err)).
  { pose proof (List_retry_after_invalid Decode (set_PageCursor params cursor)
                  w x xs resp body) as L.
    rewrite (Header_Get_absent _ _ Hh) in L.
    apply (L _ Hx Hr Hb Hs). reflexivity. }
  split; [exact Hf |].
  apply (error_terminal params cursor w x xs err b bs Hx Hf eq_refl Hd).
Qed.

End Fetch.

(** ** The fetcher at sample worlds *)

Lemma List_one_exchange_witness :
  exists r w',
    fetch sample_Decode sample_params server_error ≈ Ret (w', r) /\
    exchanges w' = [sample_200 Byte.x02] /\
    trace w' = [Requested sample_params] /\
    waits w' = [TimerFired] /\
    demand w' = [true; true].
Proof.
  destruct (List_one_exchange sample_Decode sample_params server_error) as [H _].
  exact (H _ _ eq_refl).
Defined.

Lemma List_unexpected_status_ends_witness :
  fetch sample_Decode (set_PageCursor sample_params "cursor-9") server_error
  ≈ Ret (exchanged (set_PageCursor sample_params "cursor-9")
           (mkExchange (inr (mkResponse 500 [] (inr [Byte.x01]))) None)
           [sample_200 Byte.x02] server_error,
         inl (Errorf_d "unexpected status code: %d" 500)) /\
  exists w',
    resume sample_Decode sample_params "cursor-9" server_error ≈ Ret (w', tt) /\
    trace w'
    = [Requested (set_PageCursor sample_params "cursor-9");
       Yielded Page_zero (Some (Errorf_d "unexpected status code: %d" 500))] /\
    exchanges w' = [sample_200 Byte.x02] /\
    waits w' = [TimerFired] /\
    demand w' = [true].
Proof.
  apply (List_unexpected_status_ends sample_Decode sample_params "cursor-9"
           server_error _ [sample_200 Byte.x02] (mkResponse 500 [] (inr [Byte.x01]))
           [Byte.x01] true [true]);
    try reflexivity; discriminate.
Defined.

Lemma List_transport_error_ends_witness :
  let e := Foreign "dial tcp: connection refused" in
  fetch sample_Decode (set_PageCursor sample_params "cursor-9") transport_down
  ≈ Ret (exchanged (set_PageCursor sample_params "cursor-9")
           (mkExchange (inl e) None) [sample_200 Byte.x02] transport_down,
         inl (Errorf_w "do: %w" e)) /\
  Unwrap (Errorf_w "do: %w" e) = Some e /\
  errors_As (Errorf_w "do: %w" e) = errors_As e /\
  (errors_As e = None ->
   exists w',
     resume sample_Decode sample_params "cursor-9" transport_down ≈ Ret (w', tt) /\
     trace w'
     = [Requested (set_PageCursor sample_params "cursor-9");
        Yielded Page_zero (Some (Errorf_w "do: %w" e))] /\
     exchanges w' = [sample_200 Byte.x02] /\
     waits w' = [TimerFired] /\
     demand w' = [true]).
Proof.
  intros e.
  apply (List_transport_error_ends sample_Decode sample_params "cursor-9"
           transport_down _ [sample_200 Byte.x02] e true [true]);
    reflexivity.
Defined.

Lemma List_unreadable_body_ends_witness :
  let e := Foreign "unexpected EOF" in
  fetch sample_Decode (set_PageCursor sample_params "cursor-9") truncated_429
  ≈ Ret (exchanged (set_PageCursor sample_params "cursor-9")
           (mkExchange (inr (mkResponse 429 [("Retry-After", ["2"])] (inl e))) None)
           [sample_200 Byte.x02] truncated_429,
         inl (Errorf_w "readall: %w" e)) /\
  errors_As (Errorf_w "readall: %w" e) = None /\
  exists w',
    resume sample_Decode sample_params "cursor-9" truncated_429 ≈ Ret (w', tt) /\
    trace w'
    = [Requested (set_PageCursor sample_params "cursor-9");
       Yielded Page_zero (Some (Errorf_w "readall: %w" e))] /\
    exchanges w' = [sample_200 Byte.x02] /\
    waits w' = [TimerFired] /\
    demand w' = [true].
Proof.
  intros e.
  apply (List_unreadable_body_ends sample_Decode sample_params "cursor-9"
           truncated_429 _ [sample_200 Byte.x02]
           (mkResponse 429 [("Retry-After", ["2"])] (inl e)) e true [true]);
    reflexivity.
Defined.

Lemma List_decode_error_ends_witness :
  let e := Foreign "unexpected end of JSON input" in
  fetch sample_Decode (set_PageCursor sample_params "cursor-9") bad_json
  ≈ Ret (exchanged (set_PageCursor sample_params "cursor-9") (sample_200 Byte.x03)
           [sample_200 Byte.x02] bad_json, inl e) /\
  exists w',
    resume sample_Decode sample_params "cursor-9" bad_json ≈ Ret (w', tt) /\
    trace w'
    = [Requested (set_PageCursor sample_params "cursor-9");
       Yielded Page_zero (Some e)] /\
    exchanges w' = [sample_200 Byte.x02] /\
    waits w' = [TimerFired] /\
    demand w' = [true].
Proof.
  intros e.
  apply (List_decode_error_ends sample_Decode sample_params "cursor-9" bad_json
           (sample_200 Byte.x03) [sample_200 Byte.x02]
           (mkResponse 200 [] (inr [Byte.x03])) [Byte.x03] e true [true]);
    reflexivity.
Defined.

Lemma List_result_inv_witness :
  exists x xs,
    exchanges two_pages = x :: xs /\
    exchanged sample_params (sample_200 Byte.x01)
      [sample_200 Byte.x02; sample_429 "1"] two_pages
    = exchanged sample_params x xs two_pages /\
    (forall resp,
       @inr error ListResponse (toListResponse sample_page1) = inr resp ->
       exists lr, serves sample_Decode x lr /\ resp = toListResponse lr) /\
    (forall err rle,
       @inr error ListResponse (toListResponse sample_page1) = inl err ->
       errors_As err = Some rle ->
       quiet sample_Decode x ->
       exists n, rate_limits x n /\
                 rle = {| RetryAfter := time.mul n time.Second |}).
Proof.
  apply (List_result_inv sample_Decode sample_params two_pages).
  apply (List_ok sample_Decode sample_params two_pages (sample_200 Byte.x01)
           [sample_200 Byte.x02; sample_429 "1"]
           (mkResponse 200 [] (inr [Byte.x01])) [Byte.x01] sample_page1);
    reflexivity.
Defined.

Lemma List_429_without_header_ends_witness :
  let err := Errorf_v_w "invalid retry-after header: %v: %w" EmptyString
               (NumError (strconv.mkNumError "Atoi" EmptyString
                            strconv.ErrSyntax)) in
  fetch sample_Decode (set_PageCursor sample_params "cursor-9") bare_429
  ≈ Ret (exchanged (set_PageCursor sample_params "cursor-9")
           (mkExchange
              (inr (mkResponse 429 [("Content-Type", ["text/plain"])] (inr [])))
              None)
           [sample_200 Byte.x02] bare_429, inl err) /\
  exists w',
    resume sample_Decode sample_params "cursor-9" bare_429 ≈ Ret (w', tt) /\
    trace w'
    = [Requested (set_PageCursor sample_params "cursor-9");
       Yielded Page_zero (Some err)] /\
    exchanges w' = [sample_200 Byte.x02] /\
    waits w' = [TimerFired] /\
    demand w' = [true].
Proof.
  intros err.
  apply (List_429_without_header_ends sample_Decode sample_params "cursor-9"
           bare_429 _ [sample_200 Byte.x02]
           (mkResponse 429 [("Content-Type", ["text/plain"])] (inr []))
           [] true [true]);
    try reflexivity.
  intros vs [H | []]. discriminate H.
Defined.

(** * The iterator in any environment *)

(** In a session an error item carries the zero page and nothing
    follows it. *)
Lemma session_error_last params cursor obs :
  session params cursor obs ->
  forall pre page err post,
    obs = pre ++ Yielded page (Some err) :: post ->
    post = [] /\ page = Page_zero.
Proof.
  induction 1 as [c pg | c pg c' rest Hne Hs IH | c e | c d rest Hs IH | c d e];
    intros pre page err post E;
    destruct pre as [| o1 [| o2 [| o3 pre]]]; cbn in E;
    try discriminate E;
    try (injection E as _ _ E; destruct pre; discriminate E);
    try (injection E as _ _ _ E; destruct pre; discriminate E).
  - injection E as _ _ E. eapply (IH []). exact E.
  - injection E as _ _ E. eapply (IH (o3 :: pre)). exact E.
  - injection E as _ <- <- <-. auto.
  - injection E as _ _ E. eapply (IH []). exact E.
  - injection E as _ _ E. eapply (IH (o3 :: pre)). exact E.
  - injection E as _ _ <- <- <-. auto.
Qed.

(** Every request of a session is the caller's parameters with some
    cursor put in. *)
Lemma session_requests params cursor obs :
  session params cursor obs ->
  forall p, In (Requested p) obs -> exists c, p = set_PageCursor params c.
Proof.
  induction 1 as [c pg | c pg c' rest Hne Hs IH | c e | c d rest Hs IH | c d e];
    intros p Hin; cbn in Hin;
    repeat (destruct Hin as [Hin | Hin]; try discriminate Hin);
    try (injection Hin as <-; eauto); try contradiction; auto.
Qed.

Section Session.

Variable Decode : list Byte.byte -> error + listResponse.

Lemma run_Select_silent d w :
  waits w = [] ->
  interp_state handle (ITree.trigger (Select d)) w ≈ ITree.spin.
Proof.
  intros H. rewrite interp_state_trigger. cbn. rewrite H. reflexivity.
Qed.

Lemma run_Yield_silent page err w :
  demand w = [] ->
  interp_state handle (ITree.trigger (Yield page err)) w ≈ ITree.spin.
Proof.
  intros H. rewrite interp_state_trigger. cbn. rewrite H. reflexivity.
Qed.

(** With the server silent the loop never gets past its fetch. *)
Lemma pass_silent params cursor w :
  exchanges w = [] -> resume Decode params cursor w ≈ ITree.spin.
Proof.
  intros Hx. unfold resume. rewrite unfold_iter. unfold ListPaginate_loop at 1.
  rewrite bind_bind, interp_state_bind.
  pose proof (List_silent Decode (set_PageCursor params cursor) w Hx) as Hs.
  unfold fetch in Hs. rewrite Hs. apply bind_spin.
Qed.

Section Blocked.

Variables (params : ListParams) (cursor : string) (w w1 : World).
Variable r : error + ListResponse.
Hypothesis fetched :
  fetch Decode (set_PageCursor params cursor) w ≈ Ret (w1, r).

(** The consumer never takes the page. *)
Lemma pass_page_blocked resp :
  r = inr resp -> demand w1 = [] ->
  resume Decode params cursor w ≈ ITree.spin.
Proof.
  intros Hr Hd. rewrite (pass_unfold Decode params cursor w w1 r fetched), Hr.
  rewrite interp_state_bind, (run_Yield_silent _ _ _ Hd), !bind_spin.
  reflexivity.
Qed.

(** The consumer never takes the error. *)
Lemma pass_error_blocked err :
  r = inl err -> errors_As err = None -> demand w1 = [] ->
  resume Decode params cursor w ≈ ITree.spin.
Proof.
  intros Hr Has Hd.
  rewrite (pass_unfold Decode params cursor w w1 r fetched), Hr, Has.
  rewrite interp_state_bind, (run_Yield_silent _ _ _ Hd), !bind_spin.
  reflexivity.
Qed.

(** The [select] never ends. *)
Lemma pass_wait_blocked err rle :
  r = inl err -> errors_As err = Some rle ->
  cancelled w1 = None -> waits w1 = [] ->
  resume Decode params cursor w ≈ ITree.spin.
Proof.
  intros Hr Has Hc Hw.
  rewrite (pass_unfold Decode params cursor w w1 r fetched), Hr, Has.
  rewrite interp_state_bind, run_ctx_Err, bind_ret_l. cbn. rewrite Hc.
  rewrite interp_state_bind, (run_Select_silent _ _ Hw), !bind_spin.
  reflexivity.
Qed.

(** The consumer never takes the cancellation error. *)
Lemma pass_cancelled_before_blocked err rle e :
  r = inl err -> errors_As err = Some rle ->
  cancelled w1 = Some e -> demand w1 = [] ->
  resume Decode params cursor w ≈ ITree.spin.
Proof.
  intros Hr Has Hc Hd.
  rewrite (pass_unfold Decode params cursor w w1 r fetched), Hr, Has.
  rewrite interp_state_bind, run_ctx_Err, bind_ret_l. cbn. rewrite Hc.
  rewrite interp_state_bind, run_ctx_Err, bind_ret_l. cbn. rewrite Hc.
  rewrite interp_state_bind, (run_Yield_silent _ _ _ Hd), !bind_spin.
  reflexivity.
Qed.

Lemma pass_cancelled_waiting_blocked err rle cause ws :
  r = inl err -> errors_As err = Some rle ->
  cancelled w1 = None -> waits w1 = Cancelled cause :: ws -> demand w1 = [] ->
  resume Decode params cursor w ≈ ITree.spin.
Proof.
  intros Hr Has Hc Hw Hd.
  rewrite (pass_unfold Decode params cursor w w1 r fetched), Hr, Has.
  rewrite interp_state_bind, run_ctx_Err, bind_ret_l. cbn. rewrite Hc.
  rewrite interp_state_bind, (run_Select _ _ _ _ Hw), bind_ret_l. cbn.
  rewrite interp_state_bind, run_ctx_Err, bind_ret_l. cbn.
  rewrite interp_state_bind.
  rewrite (run_Yield_silent _ _ (waited (RetryAfter rle) (Cancelled cause) ws w1))
    by (unfold waited; cbn; exact Hd).
  rewrite !bind_spin. reflexivity.
Qed.

End Blocked.

Lemma session_bounded params : forall n cursor w,
  (Datatypes.length (exchanges w) <= n)%nat ->
  resume Decode params cursor w ≈ ITree.spin \/
  exists w' obs consumed,
    resume Decode params cursor w ≈ Ret (w', tt) /\
    trace w' = trace w ++ obs /\
    session params cursor obs /\
    exchanges w = consumed ++ exchanges w' /\
    Datatypes.length consumed = requests obs.
Proof.
  induction n as [| n IH]; intros cursor w Hn;
    destruct (exchanges w) as [| x xs] eqn:Hx;
    try (left; apply pass_silent; exact Hx);
    cbn in Hn; [lia |].
  destruct (fetch_cases Decode (set_PageCursor params cursor) w x xs Hx)
    as (r & Hf & _).
  set (p := set_PageCursor params cursor) in *.
  set (w1 := exchanged p x xs w) in *.
  assert (Hx1 : exchanges w1 = xs) by reflexivity.
  assert (Ht1 : trace w1 = trace w ++ [Requested p]) by reflexivity.
  destruct r as [err | resp].
  - destruct (errors_As err) as [rle |] eqn:Has.
    + destruct (cancelled w1) as [e |] eqn:Hc.
      * destruct (demand w1) as [| b bs] eqn:Hd.
        { left.
          apply (pass_cancelled_before_blocked params cursor w w1 _ Hf
                   err rle e eq_refl Has Hc Hd). }
        right.
        exists (yielded Page_zero (Some e) bs w1),
               [Requested p; Yielded Page_zero (Some e)], [x].
        split; [apply (pass_cancelled_before Decode params cursor w w1 _ Hf
                         err rle e b bs eq_refl Has Hc Hd) |].
        split; [unfold yielded; cbn; rewrite Ht1, <- app_assoc; reflexivity |].
        split; [apply session_failed | split; reflexivity].
      * destruct (waits w1) as [| [| cause] ws] eqn:Hw.
        { left.
          apply (pass_wait_blocked params cursor w w1 _ Hf err rle
                   eq_refl Has Hc Hw). }
        { pose proof (pass_retry Decode params cursor w w1 _ Hf err rle ws
                        eq_refl Has Hc Hw) as Hstep.
          set (w2 := waited (RetryAfter rle) TimerFired ws w1) in *.
          destruct (IH cursor w2)
            as [Hspin | (w' & obs & consumed & Hrun & Ht & Hs & He & Hl)].
          { change (exchanges w2) with xs. lia. }
          { left. rewrite Hstep. exact Hspin. }
          right.
          exists w', (Requested p :: Waited (RetryAfter rle) time_After :: obs),
                 (x :: consumed).
          split; [rewrite Hstep; exact Hrun |].
          split; [rewrite Ht; unfold w2, waited; cbn; rewrite Ht1, <- !app_assoc;
                  reflexivity |].
          split; [apply session_retry; exact Hs |].
          split; [change (exchanges w2) with xs in He; rewrite He; reflexivity |].
          unfold requests in *. cbn. rewrite Hl. reflexivity. }
        destruct (demand w1) as [| b bs] eqn:Hd.
        { left.
          apply (pass_cancelled_waiting_blocked params cursor w w1 _ Hf
                   err rle cause ws eq_refl Has Hc Hw Hd). }
        right.
        exists (yielded Page_zero (Some cause) bs
                  (waited (RetryAfter rle) (Cancelled cause) ws w1)),
               [Requested p; Waited (RetryAfter rle) ctx_Done;
                Yielded Page_zero (Some cause)], [x].
        split; [apply (pass_cancelled_waiting Decode params cursor w w1 _ Hf
                         err rle cause ws b bs eq_refl Has Hc Hw Hd) |].
        split; [unfold yielded, waited; cbn; rewrite Ht1, <- !app_assoc;
                reflexivity |].
        split; [apply session_cancelled | split; reflexivity].
    + destruct (demand w1) as [| b bs] eqn:Hd.
      { left.
        apply (pass_error_blocked params cursor w w1 _ Hf err eq_refl Has Hd). }
      right.
      exists (yielded Page_zero (Some err) bs w1),
             [Requested p; Yielded Page_zero (Some err)], [x].
      split; [apply (pass_error Decode params cursor w w1 _ Hf err b bs
                       eq_refl Has Hd) |].
      split; [unfold yielded; cbn; rewrite Ht1, <- app_assoc; reflexivity |].
      split; [apply session_failed | split; reflexivity].
  - destruct (demand w1) as [| b bs] eqn:Hd.
    { left. apply (pass_page_blocked params cursor w w1 _ Hf resp eq_refl Hd). }
    pose proof (pass_page Decode params cursor w w1 _ Hf resp b bs eq_refl Hd)
      as Hstep.
    set (w2 := yielded (Page_ resp) None bs w1) in *.
    assert (Hlast : proceed Decode params resp b w2 ≈ Ret (w2, tt) ->
                    exists w' obs consumed,
                      resume Decode params cursor w ≈ Ret (w', tt) /\
                      trace w' = trace w ++ obs /\
                      session params cursor obs /\
                      x :: xs = consumed ++ exchanges w' /\
                      Datatypes.length consumed = requests obs).
    { intros Hp.
      exists w2, [Requested p; Yielded (Page_ resp) None], [x].
      split; [rewrite Hstep; exact Hp |].
      split; [unfold w2, yielded; cbn; rewrite Ht1, <- app_assoc; reflexivity |].
      split; [apply session_last | split; reflexivity]. }
    unfold proceed in Hstep, Hlast.
    destruct b; cbn [negb] in Hstep, Hlast; [| right; apply Hlast; reflexivity].
    destruct (String.eqb_spec (NextPageCursor resp) EmptyString) as [E | N];
      [right; apply Hlast; reflexivity |].
    destruct (IH (NextPageCursor resp) w2)
      as [Hspin | (w' & obs & consumed & Hrun & Ht & Hs & He & Hl)].
    { change (exchanges w2) with xs. lia. }
    { left. rewrite Hstep. exact Hspin. }
    right.
    exists w', (Requested p :: Yielded (Page_ resp) None :: obs), (x :: consumed).
    split; [rewrite Hstep; exact Hrun |].
    split; [rewrite Ht; unfold w2, yielded; cbn; rewrite Ht1, <- !app_assoc;
            reflexivity |].
    split; [apply (session_next params cursor (Page_ resp) (NextPageCursor resp));
            assumption |].
    split; [change (exchanges w2) with xs in He; rewrite He; reflexivity |].
    unfold requests in *. cbn. rewrite Hl. reflexivity.
Qed.

(** X8. In every environment one iteration either never returns,
    stuck on an answer that never comes, or returns having left a
    well-formed session: requests and nothing else go to the server,
    each differing from the caller's parameters in the cursor only;
    after each request comes exactly one wait or one item; a retry
    repeats the cursor, a next page has a cursor that is not empty; an
    error item comes with the zero page and is the last observation; and
    the exchanges consumed are a prefix of the script, one per
    request. *)
Theorem ListPaginate_session params cursor w :
  resume Decode params cursor w ≈ ITree.spin \/
  exists w' obs consumed,
    resume Decode params cursor w ≈ Ret (w', tt) /\
    trace w' = trace w ++ obs /\
    session params cursor obs /\
    exchanges w = consumed ++ exchanges w' /\
    Datatypes.length consumed = requests obs /\
    (forall pre page err post,
       obs = pre ++ Yielded page (Some err) :: post ->
       post = [] /\ page = Page_zero) /\
    (forall p, In (Requested p) obs -> exists c, p = set_PageCursor params c).
Proof.
  destruct (session_bounded params (Datatypes.length (exchanges w)) cursor w
              (le_n _))
    as [Hspin | (w' & obs & consumed & Hrun & Ht & Hs & He & Hl)];
    [left; exact Hspin | right].
  exists w', obs, consumed. repeat (split; [assumption |]).
  split; [apply (session_error_last params cursor obs Hs) |
          apply (session_requests params cursor obs Hs)].
Qed.

End Session.

(** * Rate limits inside a chain of pages *)

Section Throttled.

Variable Decode : list Byte.byte -> error + listResponse.

Lemma retries_resume params cursor : forall lim w tail ws,
  exchanges w = List.map fst lim ++ tail ->
  Forall (fun xs => rate_limits (fst xs) (snd xs) /\ interrupt (fst xs) = None)
         lim ->
  cancelled w = None ->
  waits w = repeat TimerFired (Datatypes.length lim) ++ ws ->
  exists w2,
    resume Decode params cursor w ≈ resume Decode params cursor w2 /\
    exchanges w2 = tail /\
    cancelled w2 = None /\
    waits w2 = ws /\
    demand w2 = demand w /\
    trace w2
    = trace w
      ++ retrying (set_PageCursor params cursor)
           (List.map (fun xs => time.mul (snd xs) time.Second) lim).
Proof.
  induction lim as [| [x n] lim IH]; intros w tail ws Hx Hl Hc Hw.
  - exists w. cbn in *. rewrite app_nil_r.
    split; [reflexivity | repeat split; auto].
  - inversion Hl as [| ? ? [Hrl Hi] Hl']; subst. cbn in Hx, Hw, Hrl, Hi.
    pose proof (rate_limits_fetch Decode (set_PageCursor params cursor) w x
                  (List.map fst lim ++ tail) n Hx Hrl) as Hf.
    set (w1 := exchanged (set_PageCursor params cursor) x
                 (List.map fst lim ++ tail) w) in *.
    assert (Hc1 : cancelled w1 = None)
      by (unfold w1, exchanged; cbn; rewrite Hc, Hi; reflexivity).
    destruct (IH (waited (time.mul n time.Second) TimerFired
                    (repeat TimerFired (Datatypes.length lim) ++ ws) w1)
                tail ws eq_refl Hl' Hc1 eq_refl)
      as (w2 & Hrun & He & Hc2 & Hw2 & Hd2 & Ht2).
    exists w2. split; [| repeat split; auto].
    + rewrite (pass_retry Decode _ _ _ _ _ Hf _ _ _ eq_refl eq_refl Hc1 Hw).
      exact Hrun.
    + rewrite Ht2. unfold waited, w1, exchanged, retrying; cbn.
      rewrite <- !app_assoc. reflexivity.
Qed.

Lemma throttled_resume params : forall l cursor w rest ws b bs,
  exchanges w = attempts_script l ++ rest ->
  Forall (attempt_ok Decode) l ->
  is_chain (List.map wire l) = true ->
  cancelled w = None ->
  waits w = repeat TimerFired (retries l) ++ ws ->
  demand w = repeat true (pred (Datatypes.length l)) ++ b :: bs ->
  exists w',
    resume Decode params cursor w ≈ Ret (w', tt) /\
    trace w' = trace w ++ throttled params cursor l /\
    exchanges w' = rest /\
    waits w' = ws /\
    demand w' = bs.
Proof.
  induction l as [| a l IH]; intros cursor w rest ws b bs Hx Hok Hch Hc Hw Hd;
    [discriminate |].
  inversion Hok as [| ? ? (Hlim & Hsv & Hiv) Hok']; subst.
  unfold attempts_script in Hx. cbn [flat_map] in Hx.
  unfold attempt_script at 1 in Hx. rewrite <- !app_assoc in Hx. cbn [app] in Hx.
  fold (attempts_script l) in Hx.
  change (retries (a :: l))
    with (Datatypes.length (refusals a) + retries l)%nat in Hw.
  rewrite repeat_app, <- app_assoc in Hw.
  destruct (retries_resume params cursor (refusals a) w
              (served a :: attempts_script l ++ rest)
              (repeat TimerFired (retries l) ++ ws) Hx Hlim Hc Hw)
    as (w2 & Hrun & He2 & Hc2 & Hw2 & Hd2 & Ht2).
  pose proof (serves_fetch Decode (set_PageCursor params cursor) w2 (served a)
                (attempts_script l ++ rest) (wire a) He2 Hsv) as Hf.
  set (w3 := exchanged (set_PageCursor params cursor) (served a)
               (attempts_script l ++ rest) w2) in *.
  destruct l as [| a2 l].
  - cbn in Hch, Hd, Hw2. rewrite Hd in Hd2.
    exists (yielded (Page_ (toListResponse (wire a))) None bs w3).
    split; [| split; [| split; [| split]]].
    + rewrite Hrun, (pass_page Decode _ _ _ _ _ Hf _ b bs eq_refl Hd2).
      unfold proceed. apply String.eqb_eq in Hch. cbn. rewrite Hch.
      destruct b; reflexivity.
    + unfold yielded, w3, exchanged; cbn. rewrite Ht2, <- !app_assoc.
      reflexivity.
    + reflexivity.
    + exact Hw2.
    + reflexivity.
  - cbn [List.map is_chain] in Hch. apply andb_prop in Hch as [Hne Hch].
    cbn [Datatypes.length pred repeat app] in Hd. rewrite Hd in Hd2.
    destruct (IH (wNextPageCursor (wire a))
                (yielded (Page_ (toListResponse (wire a))) None
                   (repeat true (Datatypes.length l) ++ b :: bs) w3)
                rest ws b bs eq_refl Hok' Hch)
      as (w' & Hrun' & Ht' & He' & Hw' & Hd').
    + unfold yielded, w3, exchanged; cbn. rewrite Hc2, Hiv. reflexivity.
    + exact Hw2.
    + reflexivity.
    + exists w'. split; [| split; [| auto]].
      * rewrite Hrun, (pass_page Decode _ _ _ _ _ Hf _ true _ eq_refl Hd2).
        unfold proceed. cbn [negb toListResponse NextPageCursor].
        apply negb_true_iff in Hne. rewrite Hne. exact Hrun'.
      * rewrite Ht'. unfold yielded, w3, exchanged; cbn.
        rewrite Ht2, <- !app_assoc. reflexivity.
Qed.

(** Waits and retried requests apart, a throttled chain shows the
    consumer what the plain chain shows. *)
Lemma items_throttled params : forall l cursor,
  items (throttled params cursor l)
  = items (paging params cursor (List.map wire l)).
Proof.
  induction l as [| a l IH]; intros cursor; [reflexivity |].
  cbn [throttled List.map paging]. unfold items in *.
  rewrite filter_app. cbn [filter is_item]. rewrite IH.
  replace (filter is_item (retrying _ _)) with (@nil Observation);
    [reflexivity |].
  unfold retrying. induction (refusals a) as [| xs lim IHl]; [reflexivity |].
  cbn. exact IHl.
Qed.

(** X9. Rate limits are absorbed. When the server answers with a
    chain of pages but rate limits the request for each page any number
    of times first, the context stays live and every wait runs to its
    end, the iterator returns having yielded exactly the pages of the
    chain, in order and with nil errors: the consumer is handed what it
    is handed when no request is rate limited. Each page is requested
    once more than it was rate limited, always with the cursor of the
    page before. *)
Theorem ListPaginate_absorbs_rate_limits params w l rest ws b bs :
  exchanges w = attempts_script l ++ rest ->
  Forall (attempt_ok Decode) l ->
  is_chain (List.map wire l) = true ->
  cancelled w = None ->
  waits w = repeat TimerFired (retries l) ++ ws ->
  demand w = repeat true (pred (Datatypes.length l)) ++ b :: bs ->
  exists w',
    run Decode params w ≈ Ret (w', tt) /\
    trace w' = trace w ++ throttled params (PageCursor params) l /\
    items (throttled params (PageCursor params) l)
    = items (paging params (PageCursor params) (List.map wire l)) /\
    exchanges w' = rest /\
    waits w' = ws /\
    demand w' = bs.
Proof.
  intros Hx Hok Hch Hc Hw Hd.
  destruct (throttled_resume params l (PageCursor params) w rest ws b bs
              Hx Hok Hch Hc Hw Hd) as (w' & Hrun & Ht & He & Hw' & Hd').
  exists w'. split; [exact Hrun | split; [exact Ht |]].
  split; [apply items_throttled | auto].
Qed.

End Throttled.

Lemma ListPaginate_absorbs_rate_limits_witness :
  exists w',
    run sample_Decode sample_params throttled_world ≈ Ret (w', tt) /\
    trace w'
    = [Requested (set_PageCursor sample_params EmptyString);
       Waited 2000000000 time_After;
       Requested (set_PageCursor sample_params EmptyString);
       Waited 0 time_After;
       Requested (set_PageCursor sample_params EmptyString);
       Yielded (Page_ (toListResponse sample_page1)) None;
       Requested (set_PageCursor sample_params "cursor-2");
       Waited 1000000000 time_After;
       Requested (set_PageCursor sample_params "cursor-2");
       Yielded (Page_ (toListResponse sample_page2)) None] /\
    items (throttled sample_params EmptyString throttled_pages)
    = [Yielded (Page_ (toListResponse sample_page1)) None;
       Yielded (Page_ (toListResponse sample_page2)) None] /\
    exchanges w' = [sample_429 "7"] /\
    waits w' = [Cancelled Canceled] /\
    demand w' = [false].
Proof.
  apply (ListPaginate_absorbs_rate_limits sample_Decode sample_params
           throttled_world throttled_pages [sample_429 "7"]
           [Cancelled Canceled] true [false]).
  - reflexivity.
  - repeat constructor;
      try (apply sample_429_rate_limits; reflexivity);
      try (apply sample_200_serves; reflexivity).
  - reflexivity.
  - reflexivity.
  - reflexivity.
  - reflexivity.
Defined.

(** * The list command *)

Lemma string_append_assoc (a b c : string) :
  String.append (String.append a b) c = String.append a (String.append b c).
Proof.
  induction a as [| ch a IH]; cbn; [reflexivity | rewrite IH; reflexivity].
Qed.

Lemma string_append_nil_r (a : string) : String.append a EmptyString = a.
Proof.
  induction a as [| ch a IH]; cbn; [reflexivity | rewrite IH; reflexivity].
Qed.

Lemma printout_app (l1 l2 : list Document) :
  printout (l1 ++ l2) = String.append (printout l1) (printout l2).
Proof.
  unfold printout. induction l1 as [| a l1 IH]; cbn [app fold_right];
    [reflexivity |].
  rewrite IH, string_append_assoc. reflexivity.
Qed.

(** Printing a page appends the texts of its articles, in order. *)
Lemma print_page_printout (page : Page) : forall out,
  print_page out page = String.append out (printout (Results page)).
Proof.
  unfold print_page, printout.
  induction (Results page) as [| a l IH]; intros out;
    cbn [fold_left fold_right].
  - rewrite string_append_nil_r. reflexivity.
  - rewrite IH, string_append_assoc. reflexivity.
Qed.

Section ListCommand.

Variable Decode : list Byte.byte -> error + listResponse.

(** Under any handler [List] is its one [Do] followed by a function of
    the reply. *)
Lemma List_pure params :
  exists f : error + Response -> error + ListResponse,
    forall (S : Type) (h : clientE ~> Monads.stateT S (itree void1)) (s : S),
      interp_state h (List Decode params) s
      ≈ ITree.bind (h _ (Do params) s) (fun st => Ret (fst st, f (snd st))).
Proof.
  exists (fun r0 =>
            match r0 with
            | inl err => inl (Errorf_w "do: %w" err)
            | inr resp =>
                match Body resp with
                | inl err => inl (Errorf_w "readall: %w" err)
                | inr b =>
                    if StatusCode resp =? StatusTooManyRequests then
                      match strconv.Atoi (Header_Get (Header_ resp) "Retry-After")
                      with
                      | inl err =>
                          inl (Errorf_v_w "invalid retry-after header: %v: %w"
                                 (Header_Get (Header_ resp) "Retry-After")
                                 (NumError err))
                      | inr seconds =>
                          inl (RateLimited
                                 {| RetryAfter := time.mul seconds time.Second |})
                      end
                    else if negb (StatusCode resp =? StatusOK) then
                      inl (Errorf_d "unexpected status code: %d" (StatusCode resp))
                    else
                      match Decode b with
                      | inl err => inl err
                      | inr lr => inr (toListResponse lr)
                      end
                end
            end).
  intros S h s. unfold List, list_.
  rewrite bind_bind, interp_state_bind, interp_state_trigger.
  apply eutt_eq_bind. intros [s' r0]. cbn.
  destruct r0 as [err | resp]; [rewrite bind_ret_l, interp_state_ret; reflexivity |].
  destruct (Body resp) as [err | b] eqn:Hb;
    [rewrite bind_ret_l, interp_state_ret; reflexivity |].
  rewrite bind_ret_l. cbn.
  destruct (StatusCode resp =? StatusTooManyRequests).
  { destruct (strconv.Atoi _); rewrite interp_state_ret; reflexivity. }
  destruct (StatusCode resp =? StatusOK); cbn;
    [| rewrite interp_state_ret; reflexivity].
  destruct (Decode b); rewrite interp_state_ret; reflexivity.
Qed.

(** The command's fetch returns what the fetch of the scripted world
    returns on the same exchange. *)
Lemma list_fetch params t x xs w r :
  server t = x :: xs ->
  exchanges w = x :: xs ->
  fetch Decode params w ≈ Ret (exchanged params x xs w, r) ->
  interp_state handle_list (List Decode params) t ≈ Ret (answered x xs t, r).
Proof.
  intros Ht Hw Hf. destruct (List_pure params) as [f Hp].
  assert (Hw' : fetch Decode params w
                ≈ Ret (exchanged params x xs w, f (reply x))).
  { unfold fetch. rewrite Hp. cbn. rewrite Hw, bind_ret_l. reflexivity. }
  pose proof (returns_once _ _ _ Hw' Hf) as E. injection E as <-.
  rewrite Hp. cbn. rewrite Ht, bind_ret_l. reflexivity.
Qed.

Section Pass.

Variables (params : ListParams) (cursor : string) (t t1 : Terminal).
Variable r : error + ListResponse.
Hypothesis fetched :
  interp_state handle_list (List Decode (set_PageCursor params cursor)) t
  ≈ Ret (t1, r).

Lemma list_pass_unfold :
  list_resume Decode params cursor t
  ≈ ITree.bind
      (interp_state handle_list (after_fetch cursor r) t1)
      (fun st =>
         match snd st with
         | inl cursor' => list_resume Decode params cursor' (fst st)
         | inr tt => Ret (fst st, tt)
         end).
Proof.
  unfold list_resume. rewrite unfold_iter.
  change (ListPaginate_loop Decode params cursor)
    with (r0 <- List Decode (set_PageCursor params cursor) ;;
          after_fetch cursor r0).
  rewrite bind_bind, interp_state_bind, fetched, bind_ret_l. cbn.
  rewrite interp_state_bind.
  apply eutt_eq_bind. intros [t2 [c | []]]; cbn.
  - rewrite interp_state_tau, tau_eutt. reflexivity.
  - rewrite interp_state_ret. reflexivity.
Qed.

(** A page is printed, and the loop goes on unless it was the last. *)
Lemma list_pass_page resp :
  r = inr resp ->
  let t2 := mkTerminal (server t1) (signal t1) (timers t1)
              (print_page (stdout t1) (Page_ resp)) (returned t1) in
  list_resume Decode params cursor t
  ≈ (if String.eqb (NextPageCursor resp) EmptyString then Ret (t2, tt)
     else list_resume Decode params (NextPageCursor resp) t2).
Proof.
  intros Hr t2. rewrite list_pass_unfold, Hr. cbn [after_fetch].
  rewrite interp_state_bind, interp_state_trigger. cbn.
  rewrite bind_ret_l. cbn. fold t2.
  destruct (String.eqb (NextPageCursor resp) EmptyString);
    rewrite interp_state_ret, bind_ret_l; reflexivity.
Qed.

(** An error that is no rate-limit signal is what the loop body
    returns, and nothing is printed for it. *)
Lemma list_pass_error err :
  r = inl err ->
  errors_As err = None ->
  list_resume Decode params cursor t
  ≈ Ret (mkTerminal (server t1) (signal t1) (timers t1) (stdout t1) (Some err),
         tt).
Proof.
  intros Hr Has. rewrite list_pass_unfold, Hr. cbn [after_fetch]. rewrite Has.
  rewrite interp_state_bind, interp_state_trigger. cbn.
  rewrite bind_ret_l. cbn. rewrite interp_state_ret, bind_ret_l. reflexivity.
Qed.

(** A rate limit, and the context cancelled during the wait: the loop
    body returns the context's error. *)
Lemma list_pass_cancelled_waiting err rle cause ws :
  r = inl err ->
  errors_As err = Some rle ->
  signal t1 = None ->
  timers t1 = Cancelled cause :: ws ->
  list_resume Decode params cursor t
  ≈ Ret (mkTerminal (server t1) (Some cause) ws (stdout t1) (Some cause), tt).
Proof.
  intros Hr Has Hc Hw. rewrite list_pass_unfold, Hr. cbn [after_fetch].
  rewrite Has.
  rewrite interp_state_bind, interp_state_trigger. cbn.
  rewrite bind_ret_l. cbn. rewrite Hc.
  rewrite interp_state_bind, interp_state_trigger. cbn. rewrite Hw.
  rewrite bind_ret_l. cbn.
  rewrite interp_state_bind, interp_state_trigger. cbn.
  rewrite bind_ret_l. cbn. rewrite Hc. cbn.
  rewrite interp_state_bind, interp_state_trigger. cbn.
  rewrite bind_ret_l. cbn. rewrite interp_state_ret, bind_ret_l. reflexivity.
Qed.

End Pass.

Lemma list_fetch_serves params t x xs lr :
  server t = x :: xs ->
  serves Decode x lr ->
  interp_state handle_list (List Decode params) t
  ≈ Ret (answered x xs t, inr (toListResponse lr)).
Proof.
  intros Ht Hs.
  apply (list_fetch params t x xs (mkWorld (x :: xs) None [] [] []));
    [exact Ht | reflexivity |].
  apply serves_fetch; [reflexivity | exact Hs].
Qed.

Lemma list_chain_resume params : forall lrs xs cursor t rest,
  server t = xs ++ rest ->
  Forall2 (serves Decode) xs lrs ->
  is_chain lrs = true ->
  exists t',
    list_resume Decode params cursor t ≈ Ret (t', tt) /\
    stdout t' = String.append (stdout t) (printout (articles lrs)) /\
    server t' = rest /\
    timers t' = timers t /\
    returned t' = returned t.
Proof.
  induction lrs as [| lr lrs IH]; intros xs cursor t rest Hx Hs Hc;
    [discriminate |].
  inversion Hs as [| x lr' xs' lrs' Hsv Hs']; subst.
  pose proof (list_fetch_serves (set_PageCursor params cursor) t x (xs' ++ rest)
                lr Hx Hsv) as Hf.
  pose proof (list_pass_page params cursor t _ _ Hf _ eq_refl) as Hstep.
  cbv zeta in Hstep. cbn [answered server signal timers stdout returned] in Hstep.
  destruct lrs as [| lr2 lrs].
  - inversion Hs'; subst. cbn in Hc.
    change (NextPageCursor (toListResponse lr)) with (wNextPageCursor lr) in Hstep.
    rewrite Hc in Hstep.
    eexists. split; [exact Hstep |]. cbn [stdout server timers returned].
    unfold articles. cbn [flat_map]. rewrite app_nil_r, print_page_printout.
    auto.
  - cbn [is_chain] in Hc. apply andb_prop in Hc as [Hne Hc].
    apply negb_true_iff in Hne.
    change (NextPageCursor (toListResponse lr)) with (wNextPageCursor lr) in Hstep.
    rewrite Hne in Hstep.
    destruct (IH xs' (wNextPageCursor lr)
                (mkTerminal (xs' ++ rest) (cancel (signal t) (interrupt x))
                   (timers t) (print_page (stdout t) (Page_ (toListResponse lr)))
                   (returned t))
                rest eq_refl Hs' Hc)
      as (t' & Hrun & Ho & Hsv' & Htm & Hrt).
    exists t'. split; [rewrite Hstep; exact Hrun |].
    split; [| auto].
    rewrite Ho. cbn [stdout]. rewrite print_page_printout, string_append_assoc.
    change (articles (lr :: lr2 :: lrs))
      with (Results (Page_ (toListResponse lr)) ++ articles (lr2 :: lrs)).
    rewrite printout_app. reflexivity.
Qed.

(** Pages that all have a next cursor are printed one after the other,
    and the loop stands at the cursor of the last. *)
Lemma list_pages_resume params : forall lrs xs cursor t tail,
  server t = xs ++ tail ->
  Forall2 (serves Decode) xs lrs ->
  all_continue lrs = true ->
  exists t2 cursor2,
    list_resume Decode params cursor t ≈ list_resume Decode params cursor2 t2 /\
    stdout t2 = String.append (stdout t) (printout (articles lrs)) /\
    server t2 = tail /\
    timers t2 = timers t /\
    returned t2 = returned t /\
    (signal t = None -> Forall (fun x => interrupt x = None) xs ->
     signal t2 = None).
Proof.
  induction lrs as [| lr lrs IH]; intros xs cursor t tail Hx Hs Hc.
  - inversion Hs; subst. exists t, cursor. cbn [app] in Hx.
    split; [reflexivity |].
    unfold articles, printout. cbn [flat_map fold_right].
    rewrite string_append_nil_r. auto.
  - inversion Hs as [| x0 lr' xs' lrs' Hsv Hs']; subst.
    cbn [all_continue forallb] in Hc. apply andb_prop in Hc as [Hne Hc].
    apply negb_true_iff in Hne.
    pose proof (list_fetch_serves (set_PageCursor params cursor) t x0
                  (xs' ++ tail) lr Hx Hsv) as Hf.
    pose proof (list_pass_page params cursor t _ _ Hf _ eq_refl) as Hstep.
    cbv zeta in Hstep.
    cbn [answered server signal timers stdout returned] in Hstep.
    change (NextPageCursor (toListResponse lr)) with (wNextPageCursor lr) in Hstep.
    rewrite Hne in Hstep.
    destruct (IH xs' (wNextPageCursor lr)
                (mkTerminal (xs' ++ tail) (cancel (signal t) (interrupt x0))
                   (timers t) (print_page (stdout t) (Page_ (toListResponse lr)))
                   (returned t))
                tail eq_refl Hs' Hc)
      as (t2 & c2 & Hrun & Ho & Hsv' & Htm & Hrt & Hsg).
    exists t2, c2. split; [rewrite Hstep; exact Hrun |].
    split; [| repeat split; auto].
    + rewrite Ho. cbn [stdout]. rewrite print_page_printout, string_append_assoc.
      change (articles (lr :: lrs))
        with (Results (Page_ (toListResponse lr)) ++ articles lrs).
      rewrite printout_app. reflexivity.
    + intros Hsig Hint. inversion Hint as [| ? ? Hi0 Hint']; subst.
      apply Hsg; [cbn; rewrite Hsig, Hi0; reflexivity | exact Hint'].
Qed.

Lemma list_Exec_run o t :
  APIToken o <> EmptyString ->
  list_Exec Decode o t
  ≈ ITree.bind
      (list_resume Decode ListParams_zero EmptyString
         (mkTerminal (server t) (signal t) (timers t) (stdout t) None))
      (fun st => Ret (fst st, option_map ClientError (returned (fst st)))).
Proof.
  intros Ho. unfold list_Exec, validate.
  apply String.eqb_neq in Ho. rewrite Ho. reflexivity.
Qed.

(** X10. With a token set, the list command, against a server that
    answers with a chain of pages, prints the identifier and the title
    of every article of every page, page after page and in the order of
    each page, in the form of its format string, and returns without an
    error; it leaves what the server would answer after the chain
    untouched. *)
Theorem list_Exec_prints_chain o t xs rest lrs :
  APIToken o <> EmptyString ->
  server t = xs ++ rest ->
  Forall2 (serves Decode) xs lrs ->
  is_chain lrs = true ->
  exists t',
    list_Exec Decode o t ≈ Ret (t', None) /\
    stdout t' = String.append (stdout t) (printout (articles lrs)) /\
    server t' = rest /\
    timers t' = timers t.
Proof.
  intros Ho Hx Hs Hc.
  destruct (list_chain_resume
              ListParams_zero lrs xs EmptyString
              (mkTerminal (server t) (signal t) (timers t) (stdout t) None)
              rest Hx Hs Hc)
    as (t' & Hrun & Hout & Hsv & Htm & Hrt).
  exists t'. split; [| auto].
  rewrite (list_Exec_run o t Ho), Hrun, bind_ret_l. cbn [fst].
  rewrite Hrt. reflexivity.
Qed.

(** X11. When the fetch of a later page fails with an error that is
    no rate-limit signal, the list command has printed the articles of
    all the pages before it, prints nothing for the failure, returns
    that error and asks the server for nothing more. *)
Theorem list_Exec_partial_output o t xs x rest lrs err :
  APIToken o <> EmptyString ->
  server t = xs ++ x :: rest ->
  Forall2 (serves Decode) xs lrs ->
  all_continue lrs = true ->
  fails Decode x err ->
  errors_As err = None ->
  exists t',
    list_Exec Decode o t ≈ Ret (t', Some (ClientError err)) /\
    stdout t' = String.append (stdout t) (printout (articles lrs)) /\
    server t' = rest /\
    timers t' = timers t.
Proof.
  intros Ho Hx Hs Hc Hfl Has.
  destruct (list_pages_resume
              ListParams_zero lrs xs EmptyString
              (mkTerminal (server t) (signal t) (timers t) (stdout t) None)
              (x :: rest) Hx Hs Hc)
    as (t2 & c2 & Hrun & Hout & Hsv & Htm & Hrt & _).
  pose proof (list_fetch (set_PageCursor ListParams_zero c2) t2 x rest
                (mkWorld (x :: rest) None [] [] []) (inl err) Hsv eq_refl
                (Hfl (set_PageCursor ListParams_zero c2)
                   (mkWorld (x :: rest) None [] [] []) rest eq_refl)) as Hf.
  pose proof (list_pass_error ListParams_zero c2 t2 _ _ Hf err eq_refl Has)
    as Hend.
  eexists. split.
  - rewrite (list_Exec_run o t Ho), Hrun, Hend, bind_ret_l. reflexivity.
  - cbn [answered stdout server timers]. auto.
Qed.

(** X12. When the context is cancelled (the command cancels it on an
    interrupt) while the iterator waits out a rate limit, the list
    command returns the context's error at once: the articles of the
    pages before are printed, and the server is asked for nothing
    more. *)
Theorem list_Exec_interrupted o t xs x rest lrs seconds cause ws :
  APIToken o <> EmptyString ->
  server t = xs ++ x :: rest ->
  Forall2 (serves Decode) xs lrs ->
  all_continue lrs = true ->
  rate_limits x seconds ->
  signal t = None ->
  Forall (fun x => interrupt x = None) (xs ++ [x]) ->
  timers t = Cancelled cause :: ws ->
  exists t',
    list_Exec Decode o t ≈ Ret (t', Some (ClientError cause)) /\
    stdout t' = String.append (stdout t) (printout (articles lrs)) /\
    server t' = rest /\
    timers t' = ws.
Proof.
  intros Ho Hx Hs Hc Hrl Hsig Hint Htm.
  apply Forall_app in Hint as [Hint Hix]. inversion Hix as [| ? ? Hi _]; subst.
  destruct (list_pages_resume
              ListParams_zero lrs xs EmptyString
              (mkTerminal (server t) (signal t) (timers t) (stdout t) None)
              (x :: rest) Hx Hs Hc)
    as (t2 & c2 & Hrun & Hout & Hsv & Htm2 & Hrt & Hsg).
  specialize (Hsg Hsig Hint). cbn [timers] in Htm2. rewrite Htm in Htm2.
  pose proof (list_fetch (set_PageCursor ListParams_zero c2) t2 x rest
                (mkWorld (x :: rest) None [] [] []) _ Hsv eq_refl
                (rate_limits_fetch Decode (set_PageCursor ListParams_zero c2)
                   (mkWorld (x :: rest) None [] [] []) x rest seconds
                   eq_refl Hrl)) as Hf.
  assert (Hs1 : signal (answered x rest t2) = None)
    by (cbn; rewrite Hsg, Hi; reflexivity).
  pose proof (list_pass_cancelled_waiting ListParams_zero c2 t2 _ _ Hf _ _
                cause ws eq_refl eq_refl Hs1 Htm2) as Hend.
  eexists. split.
  - rewrite (list_Exec_run o t Ho), Hrun, Hend, bind_ret_l. reflexivity.
  - cbn [answered stdout server timers]. auto.
Qed.

End ListCommand.

Lemma list_Exec_prints_chain_witness :
  exists t',
    list_Exec sample_Decode (mkRootOpts "secret") two_pages_terminal
    ≈ Ret (t', None) /\
    stdout t'
    = String.append (stdout two_pages_terminal)
        (printout (articles [sample_page1; sample_page2])) /\
    server t' = [sample_429 "1"] /\
    timers t' = [].
Proof.
  apply (list_Exec_prints_chain sample_Decode (mkRootOpts "secret")
           two_pages_terminal [sample_200 Byte.x01; sample_200 Byte.x02]
           [sample_429 "1"] [sample_page1; sample_page2]).
  - discriminate.
  - reflexivity.
  - repeat constructor; apply sample_200_serves; reflexivity.
  - reflexivity.
Defined.

Lemma list_Exec_partial_output_witness :
  exists t',
    list_Exec sample_Decode (mkRootOpts "secret") failing_terminal
    ≈ Ret (t', Some (ClientError (Errorf_d "unexpected status code: %d" 500))) /\
    stdout t'
    = String.append (stdout failing_terminal) (printout (articles [sample_page1])) /\
    server t' = [sample_200 Byte.x02] /\
    timers t' = [].
Proof.
  apply (list_Exec_partial_output sample_Decode (mkRootOpts "secret")
           failing_terminal [sample_200 Byte.x01]
           (mkExchange (inr (mkResponse 500 [] (inr [Byte.x01]))) None)
           [sample_200 Byte.x02] [sample_page1]).
  - discriminate.
  - reflexivity.
  - repeat constructor; apply sample_200_serves; reflexivity.
  - reflexivity.
  - intros params w xs Hx.
    apply (List_unexpected_status sample_Decode params w _ xs
             (mkResponse 500 [] (inr [Byte.x01])) [Byte.x01]);
      try reflexivity; try discriminate. exact Hx.
  - reflexivity.
Defined.

Lemma list_Exec_interrupted_witness :
  exists t',
    list_Exec sample_Decode (mkRootOpts "secret") interrupted_terminal
    ≈ Ret (t', Some (ClientError Canceled)) /\
    stdout t'
    = String.append (stdout interrupted_terminal)
        (printout (articles [sample_page1])) /\
    server t' = [sample_200 Byte.x02] /\
    timers t' = [].
Proof.
  apply (list_Exec_interrupted sample_Decode (mkRootOpts "secret")
           interrupted_terminal [sample_200 Byte.x01] (sample_429 "30")
           [sample_200 Byte.x02] [sample_page1] 30 Canceled []).
  - discriminate.
  - reflexivity.
  - repeat constructor; apply sample_200_serves; reflexivity.
  - reflexivity.
  - apply sample_429_rate_limits; reflexivity.
  - reflexivity.
  - repeat constructor.
  - reflexivity.
Defined.

(** * The transport decorator *)

Lemma Header_Get_Set_same h key value :
  Header_Get (Header_Set h key value) key = value.
Proof.
  unfold Header_Set. cbn. rewrite String.eqb_refl. reflexivity.
Qed.

Lemma Header_Get_Set_other h key value key' :
  key' <> key ->
  Header_Get (Header_Set h key value) key' = Header_Get h key'.
Proof.
  intros Hne. unfold Header_Set. cbn [Header_Get].
  destruct (String.eqb_spec key key') as [E | _]; [congruence |].
  induction h as [| [k vs] h IH]; [reflexivity |].
  cbn [filter fst Header_Get].
  destruct (String.eqb_spec k key) as [-> | Hk]; cbn [negb].
  - destruct (String.eqb_spec key key') as [E | _]; [congruence | exact IH].
  - cbn [Header_Get]. destruct (String.eqb k key'); [reflexivity | exact IH].
Qed.

(** X13. Every request that goes through the transport of a client
    made by [NewClient(token)] reaches the underlying transport with
    the Authorization header set to the word Token, a space and the
    token, whatever the header held before; its URL and every other
    header are as the caller gave them. With debugging off nothing is
    printed and the result is the underlying transport's; with a
    response in hand the result is the underlying transport's with
    debugging on as well. *)
Theorem RoundTrip_authorizes dump_req dump_resp debug transport token req :
  let result :=
    RoundTrip dump_req dump_resp debug (NewClient transport token) req in
  let sent := fst (fst result) in
  Header_Get (reqHeader sent) "Authorization" = String.append "Token " token /\
  reqURL sent = reqURL req /\
  (forall key, key <> "Authorization" ->
     Header_Get (reqHeader sent) key = Header_Get (reqHeader req) key) /\
  (debug = EmptyString ->
   snd (fst result) = [] /\ snd result = Returns (transport sent)) /\
  (forall resp err, transport sent = (Some resp, err) ->
     snd result = Returns (Some resp, err)).
Proof.
  cbv zeta. unfold RoundTrip, NewClient.
  cbn [Transport authorizationHeader].
  set (sent := mkRequest (reqURL req)
                 (Header_Set (reqHeader req) "Authorization"
                    (String.append "Token " token))).
  assert (Hsent : fst (fst (let (resp, err) := transport sent in
                            if negb (String.eqb debug EmptyString)
                            then match resp with
                                 | Some r =>
                                     (sent, [dump_req sent; dump_resp r],
                                      Returns (resp, err))
                                 | None => (sent, [dump_req sent], Panics)
                                 end
                            else (sent, [], Returns (resp, err))))
                  = sent).
  { destruct (transport sent) as [[r |] err];
      destruct (negb (String.eqb debug EmptyString)); reflexivity. }
  rewrite Hsent.
  split; [apply Header_Get_Set_same |].
  split; [reflexivity |].
  split; [intros key Hk; apply Header_Get_Set_other; exact Hk |].
  split.
  - intros ->. cbn. destruct (transport sent) as [resp err]. auto.
  - intros resp err E. rewrite E.
    destruct (negb (String.eqb debug EmptyString)); reflexivity.
Qed.

Lemma RoundTrip_authorizes_witness :
  let result :=
    RoundTrip (fun _ => "request") (fun _ => "response") EmptyString
      (NewClient sample_transport "secret") sample_request in
  Header_Get (reqHeader (fst (fst result))) "Authorization" = "Token secret" /\
  reqURL (fst (fst result)) = "https://readwise.io/api/v3/list" /\
  Header_Get (reqHeader (fst (fst result))) "Accept" = "application/json" /\
  snd (fst result) = [] /\
  snd result = Returns (Some (mkResponse 200 [] (inr [Byte.x02])), None).
Proof.
  cbv zeta.
  destruct (RoundTrip_authorizes (fun _ => "request") (fun _ => "response")
              EmptyString sample_transport "secret" sample_request)
    as (Ha & Hu & Ho & Hd & _).
  destruct (Hd eq_refl) as [Hp Hr].
  split; [exact Ha | split; [exact Hu |]].
  split; [exact (Ho "Accept" ltac:(discriminate)) |].
  split; [exact Hp | exact Hr].
Defined.

(** * More of the published-date decoder *)

(** X14. The decoder stores all or nothing: on success what it stores
    into [*tv] is a function of the data alone, whatever [*tv] held; on
    any failure, invalid JSON included, [*tv] is untouched and the error
    is a function of the data alone. *)
Theorem UnmarshalJSON_all_or_nothing json_Unmarshal int64_unrepresentable tv data :
  (exists t,
     forall tv0,
       UnmarshalJSON json_Unmarshal int64_unrepresentable tv0 data = (t, None)) \/
  (exists err,
     UnmarshalJSON json_Unmarshal int64_unrepresentable tv data = (tv, Some err) /\
     forall tv0,
       UnmarshalJSON json_Unmarshal int64_unrepresentable tv0 data
       = (tv0, Some err)).
Proof.
  unfold UnmarshalJSON.
  destruct (json_Unmarshal data) as [err | v]; [right; eauto |].
  destruct v as [| b | f | s | l | m]; try (right; eauto; fail);
    try (left; eauto; fail).
  destruct (time.Parse_DateOnly s) as [err | t]; [right | left]; eauto.
Qed.

(** X15. The two encodings of one day agree on the instant and differ
    in the location: where a number is the count of milliseconds from
    the Unix epoch to the midnight UTC that a date string parses to, the
    decoder gives both the same seconds and nanoseconds, but the instant
    decoded from the string is in UTC (a nil location) and the one
    decoded from the number is in the local zone. *)
Theorem UnmarshalJSON_encodings_agree
    json_Unmarshal int64_unrepresentable tv text number value t f :
  json_Unmarshal text = inr (string_any value) ->
  time.Parse_DateOnly value = inr t ->
  json_Unmarshal number = inr (float64_any f) ->
  int64_of_float64 int64_unrepresentable f
  = (time.ext t - time.unixToInternal) * 1000 ->
  exists t',
    UnmarshalJSON json_Unmarshal int64_unrepresentable tv text = (t, None) /\
    UnmarshalJSON json_Unmarshal int64_unrepresentable tv number = (t', None) /\
    time.ext t' = time.ext t /\
    time.wall t' = time.wall t /\
    time.loc t = time.nilLoc /\
    time.loc t' = time.Local.
Proof.
  intros Ht Hp Hn Hms.
  pose proof (int64_of_float64_range int64_unrepresentable f) as Hr.
  destruct (UnixMilli_split _ Hr) as (q & r & E & Hrr & Hu).
  destruct (Parse_DateOnly_inv value t Hp)
    as (c0 & c1 & c2 & c3 & c5 & c6 & c8 & c9 & _ & _ & _ & _ & Hd).
  cbv zeta in Hd. destruct Hd as (_ & _ & Hdate).
  exists (time.UnixMilli (int64_of_float64 int64_unrepresentable f)).
  unfold UnmarshalJSON. rewrite Ht, Hp, Hn.
  split; [reflexivity | split; [reflexivity |]].
  rewrite Hu. cbn [time.ext time.wall time.loc].
  rewrite Hms in E. rewrite Hdate. unfold time.Date.
  cbn [time.ext time.wall time.loc].
  rewrite Hdate in E. unfold time.Date in E. cbn [time.ext] in E.
  repeat split; lia.
Qed.

Lemma UnmarshalJSON_encodings_agree_witness :
  exists t',
    UnmarshalJSON sample_json_Unmarshal sample_unrepresentable
      (time.Date 2020 1 1) (json_string "2024-02-29")
    = (time.Date 2024 2 29, None) /\
    UnmarshalJSON sample_json_Unmarshal sample_unrepresentable
      (time.Date 2020 1 1) (json_text "1709164800000")
    = (t', None) /\
    time.ext t' = time.ext (time.Date 2024 2 29) /\
    time.wall t' = time.wall (time.Date 2024 2 29) /\
    time.loc (time.Date 2024 2 29) = time.nilLoc /\
    time.loc t' = time.Local.
Proof.
  apply (UnmarshalJSON_encodings_agree sample_json_Unmarshal
           sample_unrepresentable (time.Date 2020 1 1)
           (json_string "2024-02-29") (json_text "1709164800000")
           "2024-02-29" (time.Date 2024 2 29)
           (float64_integer 1709164800000));
    reflexivity.
Defined.
